(** * Financial data lake: the ingestion service and its dashboard reader

    A shallow embedding of [ingestor.py] and [dashboard.py].

    The two scripts are thin layers over pandas, yfinance, fastparquet and
    Streamlit.  The fragment of those libraries that the scripts call is
    modelled in the modules [Python], [Pandas], [Yfinance] and [Storage]
    below; the scripts themselves are in [Ingestor] and [Dashboard], one
    definition per source function, with the source's names.  Calls into
    the outside world (the feed, the disk, the clock and signals) take their
    outcome from an explicit record of surroundings, so that every function
    is total and can be run on sample data. *)

From Stdlib Require Import ZArith.
From Stdlib Require Import Floats.PrimFloat.
From stdpp Require Import gmap strings list pretty.

(** ** Python: exceptions and outcomes of calls *)

Module Python.

(** The part of the exception hierarchy that the handlers of the two
    scripts tell apart.  [except Exception] catches the third constructor
    only; [cls] is the class name ([KeyError], [ValueError], ...) and [msg]
    is what [str(e)] renders. *)
Inductive BaseException :=
| KeyboardInterrupt
| SystemExit
| Exception (cls msg : string).

Inductive Outcome (A : Type) :=
| Ret (a : A)
| Raise (e : BaseException).
Arguments Ret {A} a.
Arguments Raise {A} e.

#[global] Instance Outcome_ret : MRet Outcome := λ A (a : A), Ret a.
#[global] Instance Outcome_bind : MBind Outcome := λ A B (f : A → Outcome B) o,
  match o with
  | Ret a => f a
  | Raise e => Raise e
  end.

Definition is_error (e : BaseException) : bool :=
  match e with Exception _ _ => true | _ => false end.

Definition str (e : BaseException) : string :=
  match e with
  | KeyboardInterrupt => ""
  | SystemExit => ""
  | Exception _ msg => msg
  end.

(** [logging] levels used by the ingestor. *)
Inductive Level := INFO | WARNING | ERROR | CRITICAL.

End Python.
Export Python.

(** ** Pandas: the data frames the ingestor manipulates *)

Module Pandas.

(** A [pandas.Timestamp] through the calendar fields it exposes. *)
Record Timestamp := {
  year : Z; month : Z; day : Z;
  hour : Z; minute : Z; second : Z
}.

(** Cells are dynamically typed.  A missing price is the float NaN. *)
Inductive Value :=
| VFloat (x : float)
| VTime (t : Timestamp)
| VStr (s : string)
| VInt (n : Z).

Abbreviation Series := (list Value).

Record DataFrame := {
  index_name : option string;
  index : list Value;
  columns : list (string * Series)
}.

(** [pd.DataFrame()] *)
Definition pd_DataFrame : DataFrame :=
  {| index_name := None; index := []; columns := [] |}.

Definition labels (df : DataFrame) : list string := fst <$> columns df.
Definition nrows (df : DataFrame) : nat := length (index df).

(** [df.empty]: some axis has length zero. *)
Definition empty (df : DataFrame) : bool :=
  Nat.eqb (length (index df)) 0 || Nat.eqb (length (columns df)) 0.

Definition RangeIndex (n : nat) : list Value :=
  (λ i, VInt (Z.of_nat i)) <$> seq 0 n.

(** A frame as it shows once its [Index] object bears the name. *)
Definition rename_index (name : string) (df : DataFrame) : DataFrame :=
  {| index_name := Some name; index := index df; columns := columns df |}.

(** [df.reset_index()]: the index becomes the first column, under the name
    of the index; inserting a label that is already a column is refused. *)
Definition reset_index (df : DataFrame) : Outcome DataFrame :=
  let name :=
    match index_name df with
    | Some n => n
    | None => if bool_decide ("index" ∈ labels df) then "level_0" else "index"
    end in
  if bool_decide (name ∈ labels df)
  then Raise (Exception "ValueError" ("cannot insert " +:+ name +:+ ", already exists"))
  else Ret {| index_name := None;
              index := RangeIndex (nrows df);
              columns := (name, index df) :: columns df |}.

(** [frame.pop(col)] on the column list. *)
Fixpoint pop (col : string) (cs : list (string * Series))
  : option (Series * list (string * Series)) :=
  match cs with
  | [] => None
  | (l, s) :: cs' =>
      if bool_decide (l = col) then Some (s, cs')
      else match pop col cs' with
           | Some (s', rest) => Some (s', (l, s) :: rest)
           | None => None
           end
  end.

(** [np.tile(a, k)] and [Index.repeat(n)]. *)
Definition tile (a : Series) (k : nat) : Series := concat (replicate k a).
Definition repeat_each (ls : list string) (n : nat) : Series :=
  ls ≫= (λ l, replicate n (VStr l)).

(** [frame.melt(id_vars=[id_var], var_name=var_name, value_name=value_name)]
    with every other column a value column. *)
Definition melt (frame : DataFrame) (id_var var_name value_name : string)
  : Outcome DataFrame :=
  if bool_decide (value_name ∈ labels frame)
  then Raise (Exception "ValueError"
         ("value_name (" +:+ value_name +:+
          ") cannot match an element in the DataFrame columns."))
  else
    match pop id_var (columns frame) with
    | None => Raise (Exception "KeyError" id_var)
    | Some (id_data, rest) =>
        let num_rows := nrows frame in
        let num_cols_adjusted := length rest in
        Ret {| index_name := None;
               index := RangeIndex (num_rows * num_cols_adjusted);
               columns :=
                 [ (id_var, tile id_data num_cols_adjusted);
                   (var_name, repeat_each (fst <$> rest) num_rows);
                   (value_name, concat (snd <$> rest)) ] |}
    end.

(** [df[col]] *)
Fixpoint lookup_col (col : string) (cs : list (string * Series)) : option Series :=
  match cs with
  | [] => None
  | (l, s) :: cs' => if bool_decide (l = col) then Some s else lookup_col col cs'
  end.

Definition getitem (df : DataFrame) (col : string) : Outcome Series :=
  match lookup_col col (columns df) with
  | Some s => Ret s
  | None => Raise (Exception "KeyError" col)
  end.

(** [df[col] = s]: replace the column, or append it. *)
Fixpoint assign (col : string) (s : Series) (cs : list (string * Series))
  : list (string * Series) :=
  match cs with
  | [] => [(col, s)]
  | (l, s') :: cs' =>
      if bool_decide (l = col) then (l, s) :: cs' else (l, s') :: assign col s cs'
  end.

Definition setitem (df : DataFrame) (col : string) (s : Series) : DataFrame :=
  {| index_name := index_name df; index := index df;
     columns := assign col s (columns df) |}.

Definition isna (v : Value) : bool :=
  match v with
  | VFloat x => PrimFloat.is_nan x
  | _ => false
  end.

(** Boolean-mask selection of the positions of a column. *)
Fixpoint select {A : Type} (mask : list bool) (l : list A) : list A :=
  match mask, l with
  | b :: mask', x :: l' => if b then x :: select mask' l' else select mask' l'
  | _, _ => []
  end.

(** [df.dropna(subset=[col])] *)
Definition dropna (df : DataFrame) (col : string) : Outcome DataFrame :=
  match lookup_col col (columns df) with
  | None => Raise (Exception "KeyError" col)
  | Some s =>
      let mask := (λ v, negb (isna v)) <$> s in
      Ret {| index_name := index_name df;
             index := select mask (index df);
             columns := (λ c, (c.1, select mask c.2)) <$> columns df |}
  end.

(** [s.dt.<field>]: only for datetime values. *)
Definition dt_value (field : Timestamp → Z) (v : Value) : option Value :=
  match v with
  | VTime t => Some (VInt (field t))
  | _ => None
  end.

Definition dt (field : Timestamp → Z) (s : Series) : Outcome Series :=
  match mapM (dt_value field) s with
  | Some r => Ret r
  | None => Raise (Exception "AttributeError"
                     "Can only use .dt accessor with datetimelike values")
  end.

End Pandas.
Export Pandas.

(** ** The upstream quote source: what [yf.download] hands back *)

Module Yfinance.

(** The response has two-level columns: a price field ([Open], [High],
    [Low], [Close], [Volume], ...) and, under it, one column per ticker. *)
Record Quotes := {
  q_index_name : option string;
  q_index : list Value;
  q_fields : list (string * list (string * Series))
}.

Definition quotes_empty (data : Quotes) : bool :=
  Nat.eqb (length (q_index data)) 0 ||
  Nat.eqb (length (q_fields data ≫= snd)) 0.

Fixpoint lookup_field (field : string) (fs : list (string * list (string * Series)))
  : option (list (string * Series)) :=
  match fs with
  | [] => None
  | (l, cs) :: fs' => if bool_decide (l = field) then Some cs else lookup_field field fs'
  end.

(** [data[field]] *)
Definition quotes_getitem (data : Quotes) (field : string) : Outcome DataFrame :=
  match lookup_field field (q_fields data) with
  | Some cs => Ret {| index_name := q_index_name data;
                      index := q_index data;
                      columns := cs |}
  | None => Raise (Exception "KeyError" field)
  end.

End Yfinance.
Export Yfinance.

(** ** The store on disk, and [DataFrame.to_parquet] with the fastparquet engine *)

Module Storage.

Inductive File :=
| PartFile (compression : string) (table : list (string * Series))
| Metadata (row_groups : list string)
| CommonMetadata
| Truncated.   (* opened for writing and not written: 0 bytes *)

Record Disk := {
  files : gmap string File;
  dirs : gset string
}.

Definition no_disk : Disk := {| files := ∅; dirs := ∅ |}.

(** [os.path.exists] *)
Definition os_path_exists (d : Disk) (path : string) : bool :=
  bool_decide (path ∈ dirs d) || bool_decide (path ∈ dom (files d)).

(** One more hive level, [prefix/name=value]; only integer and string keys
    are modelled. *)
Definition hive_level (name : string) (prefix : string) (v : Value) : option string :=
  match v with
  | VInt n => Some (prefix +:+ "/" +:+ name +:+ "=" +:+ pretty n)
  | VStr s => Some (prefix +:+ "/" +:+ name +:+ "=" +:+ s)
  | _ => None
  end.

(** The directories of row [i], outermost first: [path/ano=Y],
    [path/ano=Y/mes=M], [path/ano=Y/mes=M/dia=D]. *)
Fixpoint hive_chain (prefix : string) (keys : list (string * Series)) (i : nat)
  : option (list string) :=
  match keys with
  | [] => Some []
  | (name, s) :: keys' =>
      v ← s !! i;
      d ← hive_level name prefix v;
      ds ← hive_chain d keys' i;
      Some (d :: ds)
  end.

Definition leaf (path : string) (chain : list string) : string :=
  default path (last chain).

Definition part_name : string := "part.0.parquet".

(** [df.to_parquet(path, engine='fastparquet', partition_cols=...,
    compression=..., index=False)] on the disk.  With partition columns the
    engine writes a hive dataset, and the source leaves the engine's
    [append=False] in place: every partition directory of the frame receives
    the single row group of the call under the fixed name [part.0.parquet],
    opened for writing, and the two metadata files of the dataset are
    written at the root.  Partition columns are not stored in the files. *)
Definition to_parquet (df : DataFrame) (path : string)
    (partition_cols : list string) (compression : string) (d : Disk)
  : Outcome unit * Disk :=
  match mapM (λ c, (λ s, (c, s)) <$> lookup_col c (columns df)) partition_cols with
  | None => (Raise (Exception "KeyError" "partition column missing"), d)
  | Some keys =>
      match mapM (hive_chain path keys) (seq 0 (nrows df)) with
      | None => (Raise (Exception "TypeError" "unsupported partition value"), d)
      | Some chains =>
          let leaves := leaf path <$> chains in
          let data := filter (λ c, c.1 ∉ partition_cols) (columns df) in
          let part_of (l : string) : string * File :=
            let mask := (λ l', bool_decide (l' = l)) <$> leaves in
            (l +:+ "/" +:+ part_name,
             PartFile compression ((λ c, (c.1, select mask c.2)) <$> data)) in
          let parts := part_of <$> remove_dups leaves in
          let written := foldl (λ m pf, <[pf.1 := pf.2]> m) (files d) parts in
          (Ret tt,
           {| files := <[path +:+ "/_common_metadata" := CommonMetadata]>
                         (<[path +:+ "/_metadata" := Metadata (fst <$> parts)]> written);
              dirs := dirs d ∪ {[path]} ∪ list_to_set (concat chains) |})
      end
  end.

(** How far a write that fails had come with a path of the dataset when the
    failure struck.  A directory is [Untouched] or made.  A file is
    [Untouched], [Opened] for writing, which creates it or cuts it to 0
    bytes, or [Written]. *)
Inductive Progress := Untouched | Opened | Written.

Definition touched (reached : string → Progress) (p : string) : bool :=
  match reached p with
  | Untouched => false
  | _ => true
  end.

Definition leave (reached : string → Progress) (m : gmap string File)
    (pf : string * File) : gmap string File :=
  match reached pf.1 with
  | Untouched => m
  | Opened => <[pf.1 := Truncated]> m
  | Written => <[pf.1 := pf.2]> m
  end.

(** What the write is to put under [path]: the partition directories, and
    the files with their content, the part files first and the two
    metadata files of the dataset last. *)
Definition dataset (df : DataFrame) (path : string)
    (partition_cols : list string) (compression : string)
  : Outcome (list string * list (string * File)) :=
  match mapM (λ c, (λ s, (c, s)) <$> lookup_col c (columns df)) partition_cols with
  | None => Raise (Exception "KeyError" "partition column missing")
  | Some keys =>
      match mapM (hive_chain path keys) (seq 0 (nrows df)) with
      | None => Raise (Exception "TypeError" "unsupported partition value")
      | Some chains =>
          let leaves := leaf path <$> chains in
          let data := filter (λ c, c.1 ∉ partition_cols) (columns df) in
          let part_of (l : string) : string * File :=
            let mask := (λ l', bool_decide (l' = l)) <$> leaves in
            (l +:+ "/" +:+ part_name,
             PartFile compression ((λ c, (c.1, select mask c.2)) <$> data)) in
          let parts := part_of <$> remove_dups leaves in
          Ret (concat chains,
               parts ++ [ (path +:+ "/_metadata", Metadata (fst <$> parts));
                          (path +:+ "/_common_metadata", CommonMetadata) ])
      end
  end.

(** The disk after a write that a failure of the disk cut short.  Which
    directories the engine had made by then and which files it had opened
    or written is for the failure to tell: the root directory and the
    paths of the dataset are left as far as they were [reached], and
    nothing else is touched.  A frame that the engine refuses has no
    dataset, only the root. *)
Definition to_parquet_torn (reached : string → Progress) (df : DataFrame)
    (path : string) (partition_cols : list string) (compression : string)
    (d : Disk) : Disk :=
  let plan :=
    match dataset df path partition_cols compression with
    | Ret plan => plan
    | Raise _ => ([], [])
    end in
  {| files := foldl (leave reached) (files d) plan.2;
     dirs := dirs d ∪ list_to_set (filter (λ p, touched reached p) (path :: plan.1)) |}.

End Storage.
Export Storage.

(** ** ingestor.py *)

Module Ingestor.

(** Configuration *)
Definition ASSETS : list string :=
  [ "HGLG11.SA"; "KNRI11.SA"; "MXRF11.SA"; "XPML11.SA"; "VISC11.SA";
    "ALZR11.SA"; "HGRU11.SA"; "BTLG11.SA"; "XPLG11.SA";
    "CPTS11.SA"; "RECR11.SA"; "VGHF11.SA"; "KNCR11.SA";
    "PETR4.SA"; "VALE3.SA"; "ITUB4.SA"; "BBDC4.SA"; "BBAS3.SA";
    "WEGE3.SA"; "ABEV3.SA"; "B3SA3.SA"; "RENT3.SA";
    "SUZB3.SA"; "GGBR4.SA"; "VIVT3.SA"; "PRIO3.SA";
    "BOVA11.SA"; "IVVB11.SA"; "SMAL11.SA"; "HASH11.SA"; "NASD11.SA";
    "XINA11.SA"; "GOLD11.SA"; "AAPL34.SA"; "MSFT34.SA";
    "NVDC34.SA"; "AMZO34.SA"; "GOGL34.SA"; "TSLA34.SA"; "MELI34.SA" ].
Definition INTERVAL_SECONDS : Z := 120.
Definition BASE_PATH : string := "datalake".

(** *** The process and its surroundings *)

(** Data frames are objects: the heap maps a reference to the current value
    of the frame it names.  The index of a frame is an object of its own,
    which several frames may hold: [index_id] gives, frame by frame, the
    identity of that object.  Two frames with the same identity show the
    same [Index]; its name is kept in each of them and changed in all of
    them at once. *)
Definition ref := nat.

Record World := {
  heap : list DataFrame;
  index_id : list nat;             (* [id(df.index)] of each frame of the heap *)
  disk : Disk;
  log : list (Level * string);
  clock : Z;                       (* wall clock, in seconds *)
  sleeps : list Z;                 (* the [time.sleep] calls made so far *)
  requests : list (list string);   (* the [yf.download] calls made so far *)
  writes : list string             (* the [to_parquet] calls made so far *)
}.

(** What the outside does during one cycle of the loop: the answer of the
    upstream feed, the failure (if any) that the parquet write meets, with
    how far the write had come with each path when it struck, and the
    exception (if any) that is delivered to the process while it sleeps,
    in the interval sleep of the cycle and in the backoff sleep of the
    critical-error handler.  A stop signal is [KeyboardInterrupt]; an
    [Exception] delivered during the interval sleep stands for a fault that
    surfaces in the loop body outside the three stages. *)
Record Env := {
  download : Outcome Quotes;
  disk_fault : option BaseException;
  reached : string → Progress;
  interval_nap : option BaseException;
  backoff_nap : option BaseException
}.

Definition M (A : Type) : Type := Env → World → Outcome A * World.

#[global] Instance M_ret : MRet M := λ A (a : A) _ w, (Ret a, w).
#[global] Instance M_bind : MBind M := λ A B (f : A → M B) (m : M A) env w,
  match m env w with
  | (Ret a, w') => f a env w'
  | (Raise e, w') => (Raise e, w')
  end.

Definition lift {A : Type} (o : Outcome A) : M A := λ _ w, (o, w).
Definition surroundings : M Env := λ env w, (Ret env, w).

(** [try: body except Exception as e: handler(e)] *)
Definition try_except {A : Type} (body : M A) (handler : BaseException → M A) : M A :=
  λ env w,
    match body env w with
    | (Raise (Exception cls msg), w') => handler (Exception cls msg) env w'
    | r => r
    end.

(** [try: body except <cls>: handler] *)
Definition try_except_cls {A : Type} (cls : string) (body : M A) (handler : M A) : M A :=
  λ env w,
    match body env w with
    | (Raise (Exception cls' msg), w') =>
        if bool_decide (cls' = cls) then handler env w'
        else (Raise (Exception cls' msg), w')
    | r => r
    end.

Definition set_heap (h : list DataFrame) (w : World) : World :=
  {| heap := h; index_id := index_id w; disk := disk w; log := log w; clock := clock w;
     sleeps := sleeps w; requests := requests w; writes := writes w |}.
Definition set_disk (d : Disk) (w : World) : World :=
  {| heap := heap w; index_id := index_id w; disk := d; log := log w; clock := clock w;
     sleeps := sleeps w; requests := requests w; writes := writes w |}.
Definition add_log (l : Level) (msg : string) (w : World) : World :=
  {| heap := heap w; index_id := index_id w; disk := disk w; log := log w ++ [(l, msg)]; clock := clock w;
     sleeps := sleeps w; requests := requests w; writes := writes w |}.
Definition add_sleep (secs : Z) (w : World) : World :=
  {| heap := heap w; index_id := index_id w; disk := disk w; log := log w; clock := clock w;
     sleeps := sleeps w ++ [secs]; requests := requests w; writes := writes w |}.
Definition advance (secs : Z) (w : World) : World :=
  {| heap := heap w; index_id := index_id w; disk := disk w; log := log w; clock := (clock w + secs)%Z;
     sleeps := sleeps w; requests := requests w; writes := writes w |}.
Definition add_write (path : string) (w : World) : World :=
  {| heap := heap w; index_id := index_id w; disk := disk w; log := log w; clock := clock w;
     sleeps := sleeps w; requests := requests w; writes := writes w ++ [path] |}.
Definition add_request (assets : list string) (w : World) : World :=
  {| heap := heap w; index_id := index_id w; disk := disk w; log := log w; clock := clock w;
     sleeps := sleeps w; requests := requests w ++ [assets]; writes := writes w |}.

(** Frame objects.  A frame that enters the heap comes with an [Index]
    object that no other frame of the heap holds. *)
Definition fresh_id (ids : list nat) : nat := S (max_list ids).
Definition add_frame (df : DataFrame) (w : World) : World :=
  {| heap := heap w ++ [df];
     index_id := index_id w ++ [fresh_id (index_id w)];
     disk := disk w; log := log w; clock := clock w;
     sleeps := sleeps w; requests := requests w; writes := writes w |}.
Definition new (df : DataFrame) : M ref :=
  λ _ w, (Ret (length (heap w)), add_frame df w).
Definition deref (w : World) (r : ref) : DataFrame :=
  default pd_DataFrame (heap w !! r).
Definition load (r : ref) : M DataFrame := λ _ w, (Ret (deref w r), w).

(** Whether frame [r'] holds the [Index] object of frame [r]. *)
Definition shares_index (w : World) (r r' : ref) : bool :=
  bool_decide (r' = r) ||
  match index_id w !! r, index_id w !! r' with
  | Some i, Some i' => bool_decide (i' = i)
  | _, _ => false
  end.

(** [df.index.name = name]: the assignment goes to the [Index] object of
    the frame, and shows in every frame that holds this object. *)
Definition named (name : string) (r : ref) (w : World) : list DataFrame :=
  imap (λ r' df', if shares_index w r r' then rename_index name df' else df')
       (heap w).
Definition index_set_name (r : ref) (name : string) : M unit :=
  λ _ w, (Ret tt, set_heap (named name r w) w).

Definition df_empty (r : ref) : M bool := df ← load r; mret (empty df).

(** [logger.<level>(msg)] *)
Definition logger (l : Level) (msg : string) : M unit :=
  λ _ w, (Ret tt, add_log l msg w).
Definition logger_info := logger INFO.
Definition logger_warning := logger WARNING.
Definition logger_error := logger ERROR.
Definition logger_critical := logger CRITICAL.

(** [yf.download(assets, period='1d', interval='1m', progress=False)] *)
Definition yf_download (assets : list string) : M Quotes :=
  λ env w, (download env, add_request assets w).

(** [datetime.datetime.now()] and [strftime('%H%M%S')] *)
Definition datetime_now : M Z := λ _ w, (Ret (clock w), w).
Definition two_digits (n : Z) : string :=
  if (n <? 10)%Z then "0" +:+ pretty n else pretty n.
Definition strftime_HMS (t : Z) : string :=
  two_digits ((t / 3600) mod 24) +:+ two_digits ((t / 60) mod 60)
  +:+ two_digits (t mod 60).

(** [time.sleep(secs)], with what the outside delivers meanwhile. *)
Definition time_sleep (secs : Z) (delivered : option BaseException) : M unit :=
  λ _ w,
    match delivered with
    | Some e => (Raise e, add_sleep secs w)
    | None => (Ret tt, advance secs (add_sleep secs w))
    end.

(** [df.to_parquet(path=..., engine='fastparquet', partition_cols=...,
    compression=..., index=False)].  A failure of the disk is raised in the
    middle of the write: what the write had made by then stays on the
    disk. *)
Definition df_to_parquet (r : ref) (path : string) (partition_cols : list string)
    (compression : string) : M unit :=
  λ env w,
    match disk_fault env with
    | Some e =>
        (Raise e,
         set_disk (to_parquet_torn (reached env) (deref w r) path partition_cols
                     compression (disk w))
                  (add_write path w))
    | None =>
        let (o, d) := to_parquet (deref w r) path partition_cols compression (disk w) in
        (o, set_disk d (add_write path w))
    end.

(** *** The three stages *)

Definition fetch_data (assets : list string) : M ref :=
  try_except
    (data ← yf_download assets;
     if quotes_empty data then
       logger_warning "No data returned from API.";;
       new pd_DataFrame
     else
       try_except_cls "KeyError"
         (df_close ← lift (quotes_getitem data "Close");
          new df_close)
         (logger_error "Column 'Close' not found in API response.";;
          new pd_DataFrame))
    (λ e,
       logger_error ("Error fetching data: " +:+ str e);;
       new pd_DataFrame).

Definition process_data (df : ref) : M ref :=
  e ← df_empty df;
  if (e : bool) then new pd_DataFrame
  else
    try_except
      (index_set_name df "Datetime";;
       cur ← load df;
       df_reset ← lift (reset_index cur);
       if negb (bool_decide ("Datetime" ∈ labels df_reset)) then
         logger_error "Datetime column missing after reset_index.";;
         new pd_DataFrame
       else
         df_melted ← lift (melt df_reset "Datetime" "Ticker" "Close");
         df_melted ← lift (dropna df_melted "Close");
         ano ← lift (s ← getitem df_melted "Datetime"; dt year s);
         let df_melted := setitem df_melted "ano" ano in
         mes ← lift (s ← getitem df_melted "Datetime"; dt month s);
         let df_melted := setitem df_melted "mes" mes in
         dia ← lift (s ← getitem df_melted "Datetime"; dt day s);
         let df_melted := setitem df_melted "dia" dia in
         new df_melted)
      (λ e,
         logger_error ("Error processing data: " +:+ str e);;
         new pd_DataFrame).

Definition save_to_datalake (df : ref) (base_path : string) : M unit :=
  e ← df_empty df;
  if (e : bool) then mret tt
  else
    try_except
      (current_time ← datetime_now;
       let filename := "market_data_" +:+ strftime_HMS current_time +:+ ".parquet" in
       df_to_parquet df base_path ["ano"; "mes"; "dia"] "snappy";;
       logger_info ("Data saved successfully to " +:+ base_path))
      (λ e, logger_error ("Error saving to Data Lake: " +:+ str e)).

(** *** The scheduler loop *)

(** The body of the [try] of one iteration. *)
Definition main_body : M unit :=
  logger_info "Fetching market data...";;
  df_raw ← fetch_data ASSETS;
  raw_empty ← df_empty df_raw;
  (if negb raw_empty then
     df_processed ← process_data df_raw;
     processed_empty ← df_empty df_processed;
     if negb processed_empty then save_to_datalake df_processed BASE_PATH
     else logger_warning "Processed data is empty."
   else mret tt);;
  logger_info ("Sleeping for " +:+ pretty INTERVAL_SECONDS +:+ " seconds...");;
  env ← surroundings;
  time_sleep INTERVAL_SECONDS (interval_nap env).

Inductive Ctl := Continue | Break.

(** One iteration of [while True], with the two handlers of its [try]. *)
Definition main_iteration : M Ctl :=
  λ env w,
    match main_body env w with
    | (Ret _, w') => (Ret Continue, w')
    | (Raise KeyboardInterrupt, w') =>
        (logger_info "Service stopped by user.";; mret Break) env w'
    | (Raise (Exception cls msg), w') =>
        (logger_critical ("Critical error in main loop: " +:+ msg);;
         time_sleep 60 (backoff_nap env);;
         mret Continue) env w'
    | (Raise e, w') => (Raise e, w')
    end.

(** Where the process stands after the cycles whose surroundings are given:
    still looping, returned from [main] after the [break], or left by an
    exception that no handler caught. *)
Inductive Status := Running | Stopped | Crashed (e : BaseException).

Fixpoint main_loop (envs : list Env) (w : World) : Status * World :=
  match envs with
  | [] => (Running, w)
  | env :: envs' =>
      match main_iteration env w with
      | (Ret Continue, w') => main_loop envs' w'
      | (Ret Break, w') => (Stopped, w')
      | (Raise e, w') => (Crashed e, w')
      end
  end.

Definition main (envs : list Env) (w : World) : Status * World :=
  main_loop envs (add_log INFO "Starting Financial Data Ingestion Service..." w).

End Ingestor.

(** ** dashboard.py *)

Module Dashboard.

Definition DATA_PATH : string := "datalake".

(** What the page shows. *)
Inductive Element :=
| Title (s : string)
| Warning (s : string)
| Info (s : string)
| Error (s : string)
| Other (kind body : string).

(** What one run of the script finds around it: the store, what
    [pd.read_parquet(path, engine='fastparquet')] does on it, how
    [pd.to_datetime] converts a cell that is not yet a timestamp, the time
    of the run, and what the filters, indicators, chart and table of lines
    55-127 come to for a frame that has rows. *)
Record Env := {
  store : Disk;
  read_parquet : string → Outcome DataFrame;
  convert : Value → option Timestamp;
  now : Z;
  report : DataFrame → Outcome (list Element)
}.

(** An entry of [st.cache_data]: when it was computed, the value returned
    and the elements the call rendered, which a hit replays. *)
Record Entry := {
  computed_at : Z;
  value : DataFrame;
  rendered : list Element
}.

Record Session := {
  cache : gmap string Entry;
  page : list Element
}.

Definition St (A : Type) : Type := Env → Session → Outcome A * Session.

#[global] Instance St_ret : MRet St := λ A (a : A) _ s, (Ret a, s).
#[global] Instance St_bind : MBind St := λ A B (f : A → St B) (m : St A) env s,
  match m env s with
  | (Ret a, s') => f a env s'
  | (Raise e, s') => (Raise e, s')
  end.

Definition lift {A : Type} (o : Outcome A) : St A := λ _ s, (o, s).
Definition surroundings : St Env := λ env s, (Ret env, s).

Definition try_except {A : Type} (body : St A) (handler : BaseException → St A) : St A :=
  λ env s,
    match body env s with
    | (Raise (Exception cls msg), s') => handler (Exception cls msg) env s'
    | r => r
    end.

Definition render (e : Element) : St unit :=
  λ _ s, (Ret tt, {| cache := cache s; page := page s ++ [e] |}).
Definition render_all (es : list Element) : St unit :=
  λ _ s, (Ret tt, {| cache := cache s; page := page s ++ es |}).
Definition st_title (s : string) := render (Title s).
Definition st_warning (s : string) := render (Warning s).
Definition st_info (s : string) := render (Info s).
Definition st_error (s : string) := render (Error s).

Definition os_exists (path : string) : St bool :=
  λ env s, (Ret (os_path_exists (store env) path), s).

(** [pd.to_datetime(series)] *)
Definition to_datetime (conv : Value → option Timestamp) (s : Series) : Outcome Series :=
  match mapM (λ v, match v with
                   | VTime t => Some (VTime t)
                   | _ => VTime <$> conv v
                   end) s with
  | Some r => Ret r
  | None => Raise (Exception "ValueError" "Unknown datetime string format")
  end.

(** The body of [load_data]. *)
Definition load_data_body (path : string) : St DataFrame :=
  try_except
    (found ← os_exists path;
     if negb found then mret pd_DataFrame
     else
       env ← surroundings;
       df ← lift (read_parquet env path);
       if bool_decide ("Datetime" ∈ labels df) then
         s ← lift (getitem df "Datetime");
         s' ← lift (to_datetime (convert env) s);
         mret (setitem df "Datetime" s')
       else mret df)
    (λ e,
       st_error ("Error loading data: " +:+ str e);;
       mret pd_DataFrame).

(** [@st.cache_data(ttl=60)]: a result younger than the time to live is
    returned, and what the call rendered is replayed, without running the
    body; otherwise the body runs and its result is recorded. *)
Definition cache_data (ttl : Z) (f : string → St DataFrame) (arg : string)
  : St DataFrame :=
  λ env s,
    let run :=
      match f arg env s with
      | (Ret df, s') =>
          let entry := {| computed_at := now env; value := df;
                          rendered := drop (length (page s)) (page s') |} in
          (Ret df, {| cache := <[arg := entry]> (cache s'); page := page s' |})
      | r => r
      end in
    match cache s !! arg with
    | Some entry =>
        if (now env - computed_at entry <? ttl)%Z
        then (Ret (value entry),
              {| cache := cache s; page := page s ++ rendered entry |})
        else run
    | None => run
    end.

Definition load_data : string → St DataFrame := cache_data 60 load_data_body.

Definition main : St unit :=
  st_title "Financial Market Data Analysis";;
  found ← os_exists DATA_PATH;
  if negb found then
    st_warning "Data Lake directory not found. Please run the ingestor script first."
  else
    df ← load_data DATA_PATH;
    if empty df then st_info "No data available in the Data Lake yet."
    else
      env ← surroundings;
      es ← lift (report env df);
      render_all es.

End Dashboard.

(** ** Reading frames as snapshots and as quote records *)

Import Ingestor.

Record QuoteRecord := {
  timestamp : Timestamp;
  symbol : string;
  price : float;
  partitionYear : Z;
  partitionMonth : Z;
  partitionDay : Z
}.

(** One row of the tidy frame, in the order of its columns [Datetime],
    [Ticker], [Close], [ano], [mes], [dia]. *)
Definition as_record
    (row : Value * (Value * (Value * (Value * (Value * Value)))))
  : option QuoteRecord :=
  match row with
  | (VTime t, (VStr s, (VFloat p, (VInt y, (VInt m, VInt d))))) =>
      Some {| timestamp := t; symbol := s; price := p;
              partitionYear := y; partitionMonth := m; partitionDay := d |}
  | _ => None
  end.

(** The rows of a frame returned by [process_data]; a frame without columns
    has none. *)
Definition records (df : DataFrame) : option (list QuoteRecord) :=
  match columns df with
  | [] => Some []
  | cs =>
      a ← lookup_col "Datetime" cs;
      b ← lookup_col "Ticker" cs;
      c ← lookup_col "Close" cs;
      y ← lookup_col "ano" cs;
      m ← lookup_col "mes" cs;
      d ← lookup_col "dia" cs;
      mapM as_record (zip a (zip b (zip c (zip y (zip m d)))))
  end.

(** The frame that a call returned. *)
Definition returned (res : Outcome ref * World) : option DataFrame :=
  match res with
  | (Ret r, w) => heap w !! r
  | (Raise _, _) => None
  end.

Definition is_time (v : Value) : bool :=
  match v with VTime _ => true | _ => false end.
Definition is_float (v : Value) : bool :=
  match v with VFloat _ => true | _ => false end.

(** A well-formed RawSnapshot: timestamps down the index, and under every
    symbol one float cell per row. *)
Definition wf_snapshot (df : DataFrame) : bool :=
  forallb is_time (index df) &&
  forallb (λ c, Nat.eqb (length c.2) (nrows df) && forallb is_float c.2)
          (columns df).

Definition present (v : Value) : bool := negb (isna v).

Definition present_cells (df : DataFrame) : nat :=
  sum_list ((λ c, length (List.filter present c.2)) <$> columns df).

(** The record of the cell of symbol [sym] at one row, if its price is
    present; the partition keys are the calendar fields of the instant. *)
Definition cell_record (sym : string) (cell : Value * Value)
  : option QuoteRecord :=
  match cell with
  | (VTime t, VFloat p) =>
      if PrimFloat.is_nan p then None
      else Some {| timestamp := t; symbol := sym; price := p;
                   partitionYear := year t; partitionMonth := month t;
                   partitionDay := day t |}
  | _ => None
  end.

(** Column-major enumeration of the present cells: symbol by symbol in
    column order, and within a symbol in row order. *)
Definition column_major (df : DataFrame) : list QuoteRecord :=
  columns df ≫= (λ c, omap (cell_record c.1) (zip (index df) c.2)).

Definition keys_match (q : QuoteRecord) : Prop :=
  partitionYear q = year (timestamp q) ∧
  partitionMonth q = month (timestamp q) ∧
  partitionDay q = day (timestamp q).

(** A symbol bears one of the two labels that the transform itself gives to
    columns. *)
Definition clashes (df : DataFrame) : bool :=
  bool_decide ("Datetime" ∈ labels df) || bool_decide ("Close" ∈ labels df).

(** ** Failures, as the statements speak of them *)

(** A failed fetch, with the line that [fetch_data] logs for it: the
    download raised an error (transport), or its answer has rows but no
    [Close] prices (parse). *)
Definition fetch_failure (env : Ingestor.Env) : option string :=
  match download env with
  | Raise (Exception _ msg) => Some ("Error fetching data: " +:+ msg)
  | Raise _ => None
  | Ret data =>
      if quotes_empty data then None
      else match lookup_field "Close" (q_fields data) with
           | None => Some "Column 'Close' not found in API response."
           | Some _ => None
           end
  end.

(** A cycle in which whatever the outside raises is an error, that is, an
    instance of [Exception]: no stop signal and no exit request. *)
Definition errors_only (env : Ingestor.Env) : bool :=
  match download env with Raise e => is_error e | Ret _ => true end &&
  match disk_fault env with Some e => is_error e | None => true end &&
  match interval_nap env with Some e => is_error e | None => true end.

(** A cycle in which whatever the outside raises, in the body of the loop
    or while the handler of a critical failure sleeps, is an error. *)
Definition errors_throughout (env : Ingestor.Env) : bool :=
  errors_only env &&
  match backoff_nap env with Some e => is_error e | None => true end.

(** A call that, if it raises, raises an error; a computation all of whose
    runs in the given surroundings are such. *)
Definition raises_errors_only {A : Type} (o : Outcome A) : Prop :=
  match o with
  | Ret _ => True
  | Raise e => is_error e = true
  end.

Definition contained {A : Type} (env : Ingestor.Env) (m : M A) : Prop :=
  ∀ w, raises_errors_only (m env w).1.

(** Reading the store yields no row: a frame without rows, or an error. *)
Definition recordless (o : Outcome DataFrame) : bool :=
  match o with
  | Ret df => Nat.eqb (nrows df) 0
  | Raise e => is_error e
  end.

(** The store directory is missing, or holds no records. *)
Definition no_records (env : Dashboard.Env) (path : string) : Prop :=
  os_path_exists (Dashboard.store env) path = false ∨
  recordless (Dashboard.read_parquet env path) = true.

(** Whatever the cache holds for the path is an empty result: it was
    computed while the store had no records. *)
Definition cache_sound (s : Dashboard.Session) (path : string) : Prop :=
  ∀ entry, Dashboard.cache s !! path = Some entry →
           empty (Dashboard.value entry) = true.

Definition is_notice (e : Dashboard.Element) : Prop :=
  e = Dashboard.Warning
        "Data Lake directory not found. Please run the ingestor script first."
  ∨ e = Dashboard.Info "No data available in the Data Lake yet.".

(** ** The statements of the specification that the code does not meet *)

(** The tidy transform: every well-formed snapshot comes out as one record
    per present cell, with matching partition keys. *)
Definition one_record_per_present_cell (df : DataFrame) : Prop :=
  ∀ env w r, heap w !! r = Some df →
    ∃ out rs,
      returned (process_data r env w) = Some out ∧
      records out = Some rs ∧
      length rs = present_cells df ∧
      Forall keys_match rs.

(** Purity of the transform: the call leaves the snapshot object as it
    found it. *)
Definition leaves_input_unchanged (df : DataFrame) : Prop :=
  ∀ env w r, heap w !! r = Some df →
    heap (process_data r env w).2 !! r = Some df.

(** A failed fetch reaches the caller as an error. *)
Definition fetch_failure_surfaces : Prop :=
  ∀ env w assets, is_Some (fetch_failure env) →
    ∃ e w', fetch_data assets env w = (Raise e, w').

(** No error ends the loop: whatever errors the surroundings raise, after
    any number of cycles the loop is running. *)
Definition survives_every_error : Prop :=
  ∀ envs w, Forall (λ env, errors_throughout env = true) envs →
    (main_loop envs w).1 = Running.

(** A failed write reaches the caller as an error. *)
Definition write_failure_surfaces : Prop :=
  ∀ env w df base cls msg,
    empty (deref w df) = false →
    disk_fault env = Some (Exception cls msg) →
    ∃ e w', save_to_datalake df base env w = (Raise e, w').

(** ** Sample data and surroundings *)

Definition at_2024_01_02 (h m : Z) : Timestamp :=
  {| year := 2024; month := 1; day := 2;
     hour := h; minute := m; second := 0 |}.

(** The scenario of the specification: BBB has no trade at 09:30. *)
Definition scenario : DataFrame :=
  {| index_name := None;
     index := [VTime (at_2024_01_02 9 30); VTime (at_2024_01_02 9 31)];
     columns := [ ("AAA", [VFloat 10.5; VFloat 10.75]);
                  ("BBB", [VFloat nan; VFloat 20.25]) ] |}.

(** One quote of an instrument whose symbol is [Datetime]. *)
Definition homonym : DataFrame :=
  {| index_name := None;
     index := [VTime (at_2024_01_02 9 30)];
     columns := [ ("Datetime", [VFloat 10.5]) ] |}.

(** One quote of an instrument whose symbol is [Close]. *)
Definition namesake : DataFrame :=
  {| index_name := Some "Datetime";
     index := [VTime (at_2024_01_02 9 30)];
     columns := [ ("Close", [VFloat 10.5]) ] |}.

(** The quotes of one minute later, alone. *)
Definition later : DataFrame :=
  {| index_name := None;
     index := [VTime (at_2024_01_02 9 32)];
     columns := [ ("AAA", [VFloat 11]); ("BBB", [VFloat 20.5]) ] |}.

(** The process at 09:30:00 with the given frames on its heap, each with
    an index of its own, and nothing on disk. *)
Definition boot (frames : list DataFrame) : World :=
  {| heap := frames; index_id := seq 0 (length frames);
     disk := no_disk; log := []; clock := 34200;
     sleeps := []; requests := []; writes := [] |}.

(** The opening prices of the scenario's answer. *)
Definition opening : DataFrame :=
  {| index_name := None;
     index := index scenario;
     columns := [ ("AAA", [VFloat 10.25; VFloat 10.5]);
                  ("BBB", [VFloat nan; VFloat 20]) ] |}.

(** The process with the closing and the opening prices of one answer,
    which are frames over one [Index] object, and the later quotes, which
    have an index of their own. *)
Definition one_answer : World :=
  {| heap := [scenario; opening; later]; index_id := [0; 0; 1];
     disk := no_disk; log := []; clock := 34200;
     sleeps := []; requests := []; writes := [] |}.

(** Nothing goes wrong: the feed answers with the scenario. *)
Definition calm : Ingestor.Env :=
  {| download := Ret {| q_index_name := Some "Datetime";
                        q_index := index scenario;
                        q_fields := [("Close", columns scenario)] |};
     disk_fault := None; reached := λ _, Untouched; interval_nap := None; backoff_nap := None |}.

(** The feed is unreachable. *)
Definition offline : Ingestor.Env :=
  {| download := Raise (Exception "ConnectionError" "Max retries exceeded");
     disk_fault := None; reached := λ _, Untouched; interval_nap := None; backoff_nap := None |}.

(** The disk is full: the write makes its directories and opens the part
    file, and fails when it writes to it. *)
Definition disk_full : Ingestor.Env :=
  {| download := download calm;
     disk_fault := Some (Exception "OSError" "No space left on device");
     reached := λ p, if bool_decide (p ∈ [ "datalake/_metadata";
                                           "datalake/_common_metadata" ])
                     then Untouched else Opened;
     interval_nap := None; backoff_nap := None |}.

(** A fault surfaces in the loop body, outside the stages. *)
Definition glitch : Ingestor.Env :=
  {| download := download calm; disk_fault := None;
     reached := λ _, Untouched;
     interval_nap := Some (Exception "RuntimeError" "unexpected fault");
     backoff_nap := None |}.

(** A fault surfaces in the loop body, and a second one while the handler
    of the first sleeps. *)
Definition handler_fault : Ingestor.Env :=
  {| download := download calm; disk_fault := None;
     reached := λ _, Untouched;
     interval_nap := Some (Exception "RuntimeError" "unexpected fault");
     backoff_nap := Some (Exception "RuntimeError" "second fault") |}.

(** An exit request arrives during the interval sleep. *)
Definition exit_requested : Ingestor.Env :=
  {| download := download calm; disk_fault := None;
     reached := λ _, Untouched;
     interval_nap := Some SystemExit; backoff_nap := None |}.

(** A stop signal arrives during the interval sleep. *)
Definition interrupted : Ingestor.Env :=
  {| download := download calm; disk_fault := None;
     reached := λ _, Untouched;
     interval_nap := Some KeyboardInterrupt; backoff_nap := None |}.

(** The scenario and the later quotes after the tidy transform. *)
Definition tidy_scenario : DataFrame :=
  Eval vm_compute in
    default pd_DataFrame (returned (process_data 0 calm (boot [scenario]))).

Definition tidy_later : DataFrame :=
  Eval vm_compute in
    default pd_DataFrame (returned (process_data 0 calm (boot [later]))).

(** The dashboard when the store directory exists and holds no parquet
    file, on a first visit. *)
Definition bare_directory : Dashboard.Env :=
  {| Dashboard.store := {| files := ∅; dirs := {["datalake"]} |};
     Dashboard.read_parquet :=
       λ _, Raise (Exception "ValueError" "No files in dir");
     Dashboard.convert := λ _, None;
     Dashboard.now := 0;
     Dashboard.report := λ _, Ret [] |}.

Definition fresh_session : Dashboard.Session :=
  {| Dashboard.cache := ∅; Dashboard.page := [] |}.

(** ** Views used in the proofs *)

(** A snapshot seen through typed columns: instants down the index and
    floats under every symbol, every column as long as the index. *)
Definition float_column (c : string * list float) : string * Series :=
  (c.1, VFloat <$> c.2).

Definition typed (ts : list Timestamp) (cols : list (string * list float))
    (df : DataFrame) : Prop :=
  index df = VTime <$> ts ∧
  columns df = float_column <$> cols ∧
  Forall (λ c, length c.2 = length ts) cols.

Definition quote (row : Timestamp * (string * float)) : QuoteRecord :=
  {| timestamp := row.1; symbol := row.2.1; price := row.2.2;
     partitionYear := year row.1; partitionMonth := month row.1;
     partitionDay := day row.1 |}.

(** The world after a call of [fetch_data] that returned: one more request,
    one more frame, and the lines logged. *)
Definition after_fetch (w : World) (assets : list string) (df : DataFrame)
    (lines : list (Level * string)) : World :=
  {| heap := heap w ++ [df];
     index_id := index_id w ++ [fresh_id (index_id w)];
     disk := disk w; log := log w ++ lines;
     clock := clock w; sleeps := sleeps w;
     requests := requests w ++ [assets]; writes := writes w |}.

(** The world after a call of [process_data] on frame [r] that returned
    the frame [out]: unless the frame is empty its [Index] object bears the
    name [Datetime], in every frame that holds it; the new frame is on the
    heap, and the lines are logged. *)
Definition after_process (w : World) (r : ref) (out : DataFrame)
    (lines : list (Level * string)) : World :=
  {| heap := (if empty (deref w r) then heap w else named "Datetime" r w)
             ++ [out];
     index_id := index_id w ++ [fresh_id (index_id w)];
     disk := disk w; log := log w ++ lines;
     clock := clock w; sleeps := sleeps w;
     requests := requests w; writes := writes w |}.

(** What [melt] makes of a snapshot after [reset_index]. *)
Definition melted (df : DataFrame) : DataFrame :=
  {| index_name := None;
     index := RangeIndex (nrows df * length (columns df));
     columns := [ ("Datetime", tile (index df) (length (columns df)));
                  ("Ticker", repeat_each (labels df) (nrows df));
                  ("Close", concat (snd <$> columns df)) ] |}.

(** ** What the further properties speak of *)

(** A calendar field of a cell, where the cell is an instant. *)
Definition cal (field : Timestamp → Z) (v : Value) : Value :=
  match v with
  | VTime t => VInt (field t)
  | _ => v
  end.

(** The frame that [process_data] builds from a snapshot, when no step
    fails: the melted columns under the mask of present prices, then the
    three calendar columns. *)
Definition tidy_frame (df : DataFrame) : DataFrame :=
  let mask := (λ v, negb (isna v)) <$> concat (snd <$> columns df) in
  let datetime := select mask (tile (index df) (length (columns df))) in
  {| index_name := None;
     index := select mask (RangeIndex (nrows df * length (columns df)));
     columns :=
       [ ("Datetime", datetime);
         ("Ticker", select mask (repeat_each (labels df) (nrows df)));
         ("Close", select mask (concat (snd <$> columns df)));
         ("ano", cal year <$> datetime);
         ("mes", cal month <$> datetime);
         ("dia", cal day <$> datetime) ] |}.


(** The outside raises [e] in the body of the loop: in the download, in the
    parquet write or during the interval sleep. *)
Definition delivered (env : Ingestor.Env) (e : BaseException) : Prop :=
  download env = Raise e ∨ disk_fault env = Some e ∨ interval_nap env = Some e.


(** The directories of the partition of an instant under a store root,
    outermost first, and the innermost of them. *)
Definition partition_chain (base : string) (t : Timestamp) : list string :=
  let year_dir := base +:+ "/ano=" +:+ pretty (year t) in
  let month_dir := year_dir +:+ "/mes=" +:+ pretty (month t) in
  let day_dir := month_dir +:+ "/dia=" +:+ pretty (day t) in
  [year_dir; month_dir; day_dir].

Definition partition_dir (base : string) (t : Timestamp) : string :=
  let year_dir := base +:+ "/ano=" +:+ pretty (year t) in
  let month_dir := year_dir +:+ "/mes=" +:+ pretty (month t) in
  month_dir +:+ "/dia=" +:+ pretty (day t).

(** A part file that stores a quote: a snappy file of the three data
    columns with a row that has the instant, the symbol and the price. *)
Definition holds (f : File) (q : QuoteRecord) : Prop :=
  ∃ a b c j,
    f = PartFile "snappy" [("Datetime", a); ("Ticker", b); ("Close", c)] ∧
    a !! j = Some (VTime (timestamp q)) ∧
    b !! j = Some (VStr (symbol q)) ∧
    c !! j = Some (VFloat (price q)).


(** The [Close] prices of the cycle's answer, when the feed gave any: the
    frame that [fetch_data] hands to the loop. *)
Definition close_prices (env : Ingestor.Env) : option DataFrame :=
  match download env with
  | Ret data =>
      if quotes_empty data then None
      else (λ cs, {| index_name := q_index_name data; index := q_index data;
                     columns := cs |}) <$> lookup_field "Close" (q_fields data)
  | Raise _ => None
  end.

(** A minute in which no instrument traded. *)
Definition silent : DataFrame :=
  {| index_name := None;
     index := [VTime (at_2024_01_02 9 30)];
     columns := [ ("AAA", [VFloat nan]); ("BBB", [VFloat nan]) ] |}.

(** The feed answers with the silent minute. *)
Definition muted : Ingestor.Env :=
  {| download := Ret {| q_index_name := Some "Datetime";
                        q_index := index silent;
                        q_fields := [("Close", columns silent)] |};
     disk_fault := None; reached := λ _, Untouched; interval_nap := None; backoff_nap := None |}.

(** The market is closed: the feed answers with no rows. *)
Definition closed : Ingestor.Env :=
  {| download := Ret {| q_index_name := Some "Datetime"; q_index := [];
                        q_fields := [] |};
     disk_fault := None; reached := λ _, Untouched; interval_nap := None; backoff_nap := None |}.


(** No result for the path is fresh at the time of the run: the next call
    of the cached function runs its body. *)
Definition stale (env : Dashboard.Env) (s : Dashboard.Session) (path : string)
  : Prop :=
  ∀ entry, Dashboard.cache s !! path = Some entry →
           (60 ≤ Dashboard.now env - Dashboard.computed_at entry)%Z.

(** Less than a minute after the visit of the bare directory, when the
    store has the scenario. *)
Definition half_a_minute_later : Dashboard.Env :=
  {| Dashboard.store := {| files := ∅; dirs := {["datalake"]} |};
     Dashboard.read_parquet := λ _, Ret tidy_scenario;
     Dashboard.convert := λ _, None;
     Dashboard.now := 30;
     Dashboard.report := λ _, Ret [] |}.

(** * Verification *)

(** ** The scenario of the specification, run *)

Example scenario_tidy :
  records tidy_scenario =
    Some [ {| timestamp := at_2024_01_02 9 30; symbol := "AAA"; price := 10.5;
              partitionYear := 2024; partitionMonth := 1; partitionDay := 2 |};
           {| timestamp := at_2024_01_02 9 31; symbol := "AAA"; price := 10.75;
              partitionYear := 2024; partitionMonth := 1; partitionDay := 2 |};
           {| timestamp := at_2024_01_02 9 31; symbol := "BBB"; price := 20.25;
              partitionYear := 2024; partitionMonth := 1; partitionDay := 2 |} ].
Proof. reflexivity. Qed.

Example scenario_written :
  let w := (save_to_datalake 0 BASE_PATH calm (boot [tidy_scenario])).2 in
  (map_to_list (files (disk w))).*1 =
    [ "datalake/_common_metadata"; "datalake/_metadata";
      "datalake/ano=2024/mes=1/dia=2/part.0.parquet" ] ∧
  log w = [(INFO, "Data saved successfully to datalake")].
Proof. vm_compute. done. Qed.

Example two_quiet_cycles :
  let run := main [calm; calm] (boot []) in
  run.1 = Running ∧ sleeps run.2 = [120; 120]%Z ∧ clock run.2 = 34440%Z ∧
  requests run.2 = [ASSETS; ASSETS].
Proof. vm_compute. done. Qed.

Example stop_signal_ends_main :
  (main [calm; interrupted; calm] (boot [])).1 = Stopped.
Proof. vm_compute. done. Qed.

(** The closing and the opening prices of one answer are frames over one
    index: naming it through the one shows in the other, and not in a frame
    with an index of its own. *)
Example shared_index_renamed :
  let w := (process_data 0 calm one_answer).2 in
  index_name <$> heap w !! 1 = Some (Some "Datetime") ∧
  index_name <$> heap w !! 2 = Some None.
Proof. vm_compute. done. Qed.

(** With the disk full on the second write of the day, the part file that
    the first write left is cut to 0 bytes, and the call returns. *)
Example failed_write_cuts_part_file :
  let part := "datalake/ano=2024/mes=1/dia=2/part.0.parquet" in
  let first := save_to_datalake 0 BASE_PATH calm (boot [tidy_scenario; tidy_later]) in
  let second := save_to_datalake 1 BASE_PATH disk_full first.2 in
  (∃ table, files (disk first.2) !! part = Some (PartFile "snappy" table)) ∧
  second.1 = Ret tt ∧
  files (disk second.2) !! part = Some Truncated.
Proof. vm_compute. split; [by eexists|done]. Qed.

(** ** Columns as lists: selection, tiling and zipping *)

Section Columns.
Context {A B : Type}.
Implicit Types (mask : list bool) (l : list A) (k : list B).

Lemma select_nil_r mask : select mask (@nil A) = [].
Proof. by destruct mask. Qed.

Lemma select_app mask1 mask2 l1 l2 :
  length mask1 = length l1 →
  select (mask1 ++ mask2) (l1 ++ l2) = select mask1 l1 ++ select mask2 l2.
Proof.
  revert l1. induction mask1 as [|b mask1 IH]; intros [|x l1] Hlen; try done.
  simpl in *. rewrite IH by lia. by destruct b.
Qed.

Lemma select_fmap (f : A → B) mask l :
  select mask (f <$> l) = f <$> select mask l.
Proof.
  revert l. induction mask as [|b mask IH]; intros [|x l]; try done.
  simpl. rewrite IH. by destruct b.
Qed.

Lemma zip_select mask l k :
  zip (select mask l) (select mask k) = select mask (zip l k).
Proof.
  revert l k. induction mask as [|b mask IH]; intros [|x l] [|y k]; try done.
  - simpl. destruct b; [done|]. by destruct (select mask l).
  - simpl. destruct b; simpl; by rewrite IH.
Qed.

Lemma replicate_length_fmap (x : B) l : replicate (length l) x = (λ _, x) <$> l.
Proof. induction l as [|a l IH]; [done|]. simpl. by rewrite IH. Qed.

End Columns.

Lemma select_bind {C A : Type} (m : C → list bool) (g : C → list A) (cs : list C) :
  Forall (λ c, length (m c) = length (g c)) cs →
  select (cs ≫= m) (cs ≫= g) = cs ≫= (λ c, select (m c) (g c)).
Proof.
  induction 1 as [|c cs Hc _ IH]; [done|].
  rewrite !bind_cons, select_app by done. by rewrite IH.
Qed.

Lemma zip_bind {C A B : Type} (f : C → list A) (g : C → list B) (cs : list C) :
  Forall (λ c, length (f c) = length (g c)) cs →
  zip (cs ≫= f) (cs ≫= g) = cs ≫= (λ c, zip (f c) (g c)).
Proof.
  induction 1 as [|c cs Hc _ IH]; [done|].
  rewrite !bind_cons, zip_with_app by done. by rewrite IH.
Qed.

Lemma times_typed (l : list Value) :
  forallb is_time l = true → ∃ ts, l = VTime <$> ts.
Proof.
  induction l as [|v l IH]; simpl; intros H.
  - by exists [].
  - apply andb_prop in H as [Hv Hl]. destruct (IH Hl) as [ts ->].
    destruct v; try done. by exists (t :: ts).
Qed.

Lemma floats_typed (l : list Value) :
  forallb is_float l = true → ∃ ps, l = VFloat <$> ps.
Proof.
  induction l as [|v l IH]; simpl; intros H.
  - by exists [].
  - apply andb_prop in H as [Hv Hl]. destruct (IH Hl) as [ps ->].
    destruct v; try done. by exists (x :: ps).
Qed.

Lemma columns_typed n (cs : list (string * Series)) :
  forallb (λ c, Nat.eqb (length c.2) n && forallb is_float c.2) cs = true →
  ∃ cols, cs = float_column <$> cols ∧
          Forall (λ c, length c.2 = n) cols.
Proof.
  induction cs as [|[l s] cs IH]; simpl; intros H.
  - by exists [].
  - apply andb_prop in H as [Hc Hcs]. apply andb_prop in Hc as [Hn Hs].
    destruct (IH Hcs) as (cols & -> & Hlen).
    destruct (floats_typed _ Hs) as [ps ->].
    exists ((l, ps) :: cols). split; [done|].
    constructor; [|done]. simpl. apply Nat.eqb_eq in Hn.
    by rewrite length_fmap in Hn.
Qed.

Lemma wf_snapshot_typed df :
  wf_snapshot df = true → ∃ ts cols, typed ts cols df.
Proof.
  unfold wf_snapshot, typed, nrows. intros H.
  apply andb_prop in H as [Hi Hc].
  destruct (times_typed _ Hi) as [ts Hts].
  destruct (columns_typed _ _ Hc) as (cols & Hcols & Hlen).
  exists ts, cols. repeat split; [done..|].
  rewrite Hts, length_fmap in Hlen. done.
Qed.

Lemma dt_times (field : Timestamp → Z) (ts : list Timestamp) :
  dt field (VTime <$> ts) = Ret ((λ t, VInt (field t)) <$> ts).
Proof.
  unfold dt.
  assert (mapM (dt_value field) (VTime <$> ts)
          = Some ((λ t, VInt (field t)) <$> ts)) as H.
  { apply mapM_Some_2. induction ts as [|t ts IH]; by constructor. }
  by rewrite H.
Qed.

Lemma as_record_rows (a : list Timestamp) (b : list string) (c : list float) :
  mapM as_record
    (zip (VTime <$> a) (zip (VStr <$> b) (zip (VFloat <$> c)
       (zip ((λ t, VInt (year t)) <$> a)
          (zip ((λ t, VInt (month t)) <$> a) ((λ t, VInt (day t)) <$> a))))))
  = Some (quote <$> zip a (zip b c)).
Proof.
  apply mapM_Some_2. revert b c.
  induction a as [|t a IH]; intros [|s b] [|p c]; by constructor.
Qed.

Lemma column_rows (ts : list Timestamp) (s : string) (ps : list float) :
  quote <$> select ((λ v, negb (isna v)) <$> (VFloat <$> ps))
              (zip ts (zip (replicate (length ts) s) ps))
  = omap (cell_record s) (zip (VTime <$> ts) (VFloat <$> ps)).
Proof.
  revert ps. induction ts as [|t ts IH]; intros [|p ps]; try done.
  simpl. rewrite <- IH. by destruct (is_nan p).
Qed.

Lemma tile_times (ts : list Timestamp) (cols : list (string * list float)) :
  tile (VTime <$> ts) (length (float_column <$> cols))
  = VTime <$> (cols ≫= (λ _, ts)).
Proof.
  unfold tile. induction cols as [|c cs IH]; [done|].
  rewrite bind_cons, fmap_app, <- IH. done.
Qed.

Lemma repeat_each_symbols (cols : list (string * list float)) n :
  repeat_each (fst <$> (float_column <$> cols)) n
  = VStr <$> (cols ≫= (λ c, replicate n c.1)).
Proof.
  unfold repeat_each. induction cols as [|c cs IH]; [done|].
  rewrite !fmap_cons, !bind_cons, fmap_app, fmap_replicate, <- IH. done.
Qed.

Lemma concat_prices (cols : list (string * list float)) :
  concat (snd <$> (float_column <$> cols)) = VFloat <$> (cols ≫= snd).
Proof.
  induction cols as [|c cs IH]; [done|].
  rewrite bind_cons, fmap_app, <- IH. done.
Qed.

Lemma mask_by_column (cols : list (string * list float)) :
  (λ v, negb (isna v)) <$> (VFloat <$> (cols ≫= snd))
  = cols ≫= (λ c, (λ v, negb (isna v)) <$> (VFloat <$> c.2)).
Proof.
  induction cols as [|c cs IH]; [done|].
  rewrite !bind_cons, !fmap_app, <- IH. done.
Qed.

(** The six columns of the tidy frame, read row by row, are the
    column-major enumeration of the present cells. *)
Lemma tidy_rows (ts : list Timestamp) (cols : list (string * list float))
    (df : DataFrame) :
  typed ts cols df →
  let mask := (λ v, negb (isna v)) <$> concat (snd <$> columns df) in
  let a := select mask (cols ≫= (λ _, ts)) in
  select mask (tile (index df) (length (columns df))) = VTime <$> a ∧
  mapM as_record
    (zip (VTime <$> a)
       (zip (select mask (repeat_each (fst <$> columns df) (nrows df)))
          (zip (select mask (concat (snd <$> columns df)))
             (zip ((λ t, VInt (year t)) <$> a)
                (zip ((λ t, VInt (month t)) <$> a)
                     ((λ t, VInt (day t)) <$> a))))))
  = Some (column_major df).
Proof.
  intros (Hi & Hc & Hshape) mask a. subst mask a. unfold column_major, nrows.
  rewrite Hi, Hc, tile_times, repeat_each_symbols, concat_prices, !select_fmap.
  split; [done|].
  rewrite as_record_rows, !zip_select. f_equal.
  rewrite length_fmap, mask_by_column.
  rewrite (zip_bind (λ c, replicate (length ts) c.1) snd).
  2:{ eapply Forall_impl; [exact Hshape|]. intros c Hc'. simpl in *.
      by rewrite length_replicate. }
  rewrite (zip_bind (λ _, ts)).
  2:{ eapply Forall_impl; [exact Hshape|]. intros c Hc'. simpl in *.
      rewrite length_zip_with, length_replicate. lia. }
  rewrite select_bind.
  2:{ eapply Forall_impl; [exact Hshape|]. intros c Hc'. simpl in *.
      rewrite !length_fmap, !length_zip_with, length_replicate. lia. }
  rewrite list_fmap_bind. clear Hi Hc.
  induction Hshape as [|c cs Hlen _ IH]; [done|].
  rewrite !bind_cons, fmap_app. simpl. rewrite column_rows. by rewrite IH.
Qed.

Lemma deref_lookup w r df : heap w !! r = Some df → deref w r = df.
Proof. unfold deref. by intros ->. Qed.

Lemma shares_index_refl w r : shares_index w r r = true.
Proof. unfold shares_index. by rewrite bool_decide_eq_true_2. Qed.

Lemma length_named name r w : length (named name r w) = length (heap w).
Proof. unfold named. apply length_imap. Qed.

Lemma named_lookup name r w r' df' :
  heap w !! r' = Some df' →
  named name r w !! r' =
    Some (if shares_index w r r' then rename_index name df' else df').
Proof.
  intros Hr'. unfold named, ref in *. by rewrite list_lookup_imap, Hr'.
Qed.

Lemma named_lookup_self name r w df :
  heap w !! r = Some df → named name r w !! r = Some (rename_index name df).
Proof.
  intros Hr. by rewrite (named_lookup _ _ _ _ _ Hr), shares_index_refl.
Qed.

Lemma deref_named name w r df :
  heap w !! r = Some df →
  deref (set_heap (named name r w) w) r = rename_index name df.
Proof.
  intros Hr. unfold deref, set_heap. simpl.
  by rewrite (named_lookup_self _ _ _ _ Hr).
Qed.

Lemma length_after_process_heap w r :
  length (if empty (deref w r) then heap w else named "Datetime" r w)
  = length (heap w).
Proof. destruct (empty (deref w r)); [done|apply length_named]. Qed.

Lemma after_process_returned w r out lg :
  heap (after_process w r out lg) !! length (heap w) = Some out.
Proof.
  unfold after_process. cbn [heap]. apply list_lookup_middle.
  symmetry. apply length_after_process_heap.
Qed.

Lemma after_process_lookup w r out lg r' df' :
  heap w !! r' = Some df' →
  heap (after_process w r out lg) !! r' =
    Some (if negb (empty (deref w r)) && shares_index w r r'
          then rename_index "Datetime" df' else df').
Proof.
  intros Hr'. pose proof (lookup_lt_Some _ _ _ Hr') as Hlt.
  unfold after_process. cbn [heap].
  rewrite lookup_app_l by (by rewrite length_after_process_heap).
  destruct (empty (deref w r)); cbn [negb andb]; [done|].
  by apply named_lookup.
Qed.

Lemma after_process_input w r out lg df :
  heap w !! r = Some df →
  heap (after_process w r out lg) !! r =
    Some (if empty df then df else rename_index "Datetime" df).
Proof.
  intros Hr. rewrite (after_process_lookup _ _ _ _ _ _ Hr).
  rewrite (deref_lookup _ _ _ Hr), shares_index_refl.
  by destruct (empty df).
Qed.

Lemma fresh_id_fresh ids : fresh_id ids ∉ ids.
Proof.
  intros Hin. apply max_list_elem_of_le in Hin. unfold fresh_id in Hin. lia.
Qed.

Lemma length_RangeIndex n : length (RangeIndex n) = n.
Proof. unfold RangeIndex. by rewrite length_fmap, length_seq. Qed.

Lemma melt_reset_index (df : DataFrame) :
  "Close" ∉ labels df →
  melt {| index_name := None; index := RangeIndex (nrows df);
          columns := ("Datetime", index df) :: columns df |}
       "Datetime" "Ticker" "Close" = Ret (melted df).
Proof.
  intros Hclose. unfold melt, labels. cbn [columns fmap list_fmap fst].
  rewrite bool_decide_eq_false_2.
  2:{ rewrite not_elem_of_cons. split; [done|exact Hclose]. }
  cbn [pop]. rewrite bool_decide_eq_true_2 by done.
  unfold melted, nrows. cbn [index]. by rewrite length_RangeIndex.
Qed.

(** Comparisons of the literal column labels. *)
Ltac labels :=
  repeat first
    [ rewrite bool_decide_eq_true_2 by done
    | rewrite bool_decide_eq_false_2 by done ].

Ltac by_labels :=
  repeat progress
    (cbn [assign lookup_col columns mbind Outcome_bind option_bind]; labels).

Lemma no_clash_tidy (ts : list Timestamp) (cols : list (string * list float))
    (df : DataFrame) :
  typed ts cols df →
  ∃ d ano mes dia,
    dropna (melted df) "Close" = Ret d ∧
    (s ← getitem d "Datetime"; dt year s) = Ret ano ∧
    (s ← getitem (setitem d "ano" ano) "Datetime"; dt month s) = Ret mes ∧
    (s ← getitem (setitem (setitem d "ano" ano) "mes" mes) "Datetime"; dt day s)
      = Ret dia ∧
    records (setitem (setitem (setitem d "ano" ano) "mes" mes) "dia" dia)
      = Some (column_major df).
Proof.
  intros Hty. destruct (tidy_rows _ _ _ Hty) as [Ha Hrows].
  unfold dropna, melted. cbn [columns lookup_col]. labels.
  cbn [fmap list_fmap fst snd]. rewrite Ha.
  do 4 eexists. split; [reflexivity|].
  unfold getitem, setitem. cbn [columns lookup_col index index_name]. labels.
  cbn [mbind Outcome_bind]. rewrite dt_times.
  split; [reflexivity|].
  by_labels. rewrite dt_times.
  split; [reflexivity|].
  by_labels. rewrite dt_times.
  split; [reflexivity|].
  unfold records. by_labels. exact Hrows.
Qed.

Lemma column_major_empty df : empty df = true → column_major df = [].
Proof.
  unfold empty, column_major. intros H. apply orb_prop in H as [H|H].
  - apply Nat.eqb_eq, nil_length_inv in H. rewrite H.
    induction (columns df) as [|c cs IH]; [done|]. by rewrite bind_cons, IH.
  - apply Nat.eqb_eq, nil_length_inv in H. by rewrite H.
Qed.

Lemma process_data_run env w r df :
  heap w !! r = Some df → wf_snapshot df = true →
  ∃ out lg,
    process_data r env w =
      (Ret (length (heap w)), after_process w r out lg) ∧
    records out = Some (if clashes df then [] else column_major df) ∧
    (lg = [] ∨ ∃ msg, lg = [(ERROR, msg)]).
Proof.
  intros Hr Hwf. pose proof (deref_lookup _ _ _ Hr) as Hd.
  destruct (wf_snapshot_typed _ Hwf) as (ts & cols & Hty).
  unfold process_data, df_empty, load, after_process.
  unfold mbind, M_bind, mret, M_ret. rewrite Hd.
  destruct (empty df) eqn:He.
  { exists pd_DataFrame, []. unfold new, add_frame. simpl. rewrite app_nil_r.
    repeat split; [|by left].
    rewrite (column_major_empty _ He). by destruct (clashes df). }
  unfold try_except, index_set_name. rewrite (deref_named _ _ _ _ Hr).
  unfold reset_index, clashes, lift. cbn [index_name rename_index].
  change (labels (rename_index "Datetime" df)) with (labels df).
  change (nrows (rename_index "Datetime" df)) with (nrows df).
  change (index (rename_index "Datetime" df)) with (index df).
  change (columns (rename_index "Datetime" df)) with (columns df).
  destruct (bool_decide ("Datetime" ∈ labels df)) eqn:Hdt.
  { eexists pd_DataFrame, [_].
    unfold logger_error, logger, new, add_frame, add_log, set_heap.
    cbn. rewrite length_named. split; [done|]. split; [done|]. right. by eexists. }
  unfold labels at 1. cbn [columns fmap list_fmap fst].
  rewrite (bool_decide_eq_true_2 _ (list_elem_of_here _ _)). cbn [negb orb].
  destruct (bool_decide ("Close" ∈ labels df)) eqn:Hcl.
  { apply bool_decide_eq_true_1 in Hcl. unfold melt, labels at 1.
    cbn [columns fmap list_fmap fst].
    rewrite (bool_decide_eq_true_2 _ (list_elem_of_further _ _ _ Hcl)).
    eexists pd_DataFrame, [_].
    unfold logger_error, logger, new, add_frame, add_log, set_heap.
    cbn. rewrite length_named. split; [done|]. split; [done|]. right. by eexists. }
  apply bool_decide_eq_false_1 in Hcl.
  rewrite (melt_reset_index _ Hcl).
  destruct (no_clash_tidy _ _ _ Hty) as (d & ano & mes & dia & -> & H1 & H2 & H3 & Hrec).
  unfold mbind in H1, H2, H3. rewrite H1, H2, H3.
  exists (setitem (setitem (setitem d "ano" ano) "mes" mes) "dia" dia), [].
  unfold new, add_frame, set_heap. cbn. rewrite length_named, app_nil_r.
  split; [done|]. split; [done|]. by left.
Qed.

(** ** The tidy transform *)

Lemma column_cells (ts : list Timestamp) (s : string) (ps : list float) :
  length ps = length ts →
  length (omap (cell_record s) (zip (VTime <$> ts) (VFloat <$> ps)))
  = length (List.filter present (VFloat <$> ps)).
Proof.
  revert ps. induction ts as [|t ts IH]; intros [|p ps] Hlen; try done.
  simpl in *. unfold present at 1. simpl.
  destruct (is_nan p); simpl; rewrite IH by lia; done.
Qed.

Lemma column_major_length ts cols df :
  typed ts cols df → length (column_major df) = present_cells df.
Proof.
  intros (Hi & Hc & Hshape). unfold column_major, present_cells.
  rewrite Hi, Hc. clear Hi Hc.
  induction Hshape as [|c cs Hlen _ IH]; [done|].
  rewrite fmap_cons, bind_cons, length_app, IH. simpl.
  by rewrite column_cells.
Qed.

Lemma column_major_sound df :
  Forall (λ q, keys_match q ∧ PrimFloat.is_nan (price q) = false) (column_major df).
Proof.
  apply Forall_forall. intros q Hq. unfold column_major in Hq.
  apply list_elem_of_bind in Hq as (c & Hq & _).
  apply list_elem_of_omap in Hq as ([t v] & _ & Hcell).
  unfold cell_record in Hcell.
  destruct t as [| t | |]; try done. destruct v as [p| | |]; try done.
  destruct (is_nan p) eqn:Hp; [done|].
  injection Hcell as <-. by repeat split.
Qed.

(** C1 (counterexample): a well-formed snapshot whose only instrument has
    the symbol [Datetime] holds one present cell, and [process_data] returns
    no record for it; likewise for the symbol [Close]. *)
Lemma process_data_homonym_loses_cell :
  wf_snapshot homonym = true ∧ ¬ one_record_per_present_cell homonym ∧
  wf_snapshot namesake = true ∧ ¬ one_record_per_present_cell namesake.
Proof.
  split; [by vm_compute|]. split; [|split; [by vm_compute|]].
  - intros H.
    destruct (H calm (boot [homonym]) 0 eq_refl)
      as (out & rs & Hret & Hrec & Hlen & _).
    vm_compute in Hret. injection Hret as <-.
    vm_compute in Hrec. injection Hrec as <-.
    vm_compute in Hlen. discriminate.
  - intros H.
    destruct (H calm (boot [namesake]) 0 eq_refl)
      as (out & rs & Hret & Hrec & Hlen & _).
    vm_compute in Hret. injection Hret as <-.
    vm_compute in Hrec. injection Hrec as <-.
    vm_compute in Hlen. discriminate.
Qed.

(** C1 (amended): for every well-formed snapshot none of whose symbols is
    [Datetime] or [Close], [process_data] returns a frame, never an error,
    with exactly one record per present cell; no record has a null price and
    every record's partition keys are the calendar year, month and day of
    its timestamp.  An empty or entirely null snapshot has no present cell,
    hence yields no record. *)
Theorem process_data_one_record_per_present_cell env w r df :
  heap w !! r = Some df →
  wf_snapshot df = true →
  clashes df = false →
  ∃ out rs,
    returned (process_data r env w) = Some out ∧
    records out = Some rs ∧
    length rs = present_cells df ∧
    Forall (λ q, keys_match q ∧ PrimFloat.is_nan (price q) = false) rs.
Proof.
  intros Hr Hwf Hclash.
  destruct (process_data_run env w r df Hr Hwf) as (out & lg & -> & Hrec & _).
  destruct (wf_snapshot_typed _ Hwf) as (ts & cols & Hty).
  rewrite Hclash in Hrec.
  exists out, (column_major df). repeat split.
  - apply after_process_returned.
  - done.
  - by eapply column_major_length.
  - apply column_major_sound.
Qed.

Lemma process_data_one_record_per_present_cell_witness :
  heap (boot [scenario]) !! 0 = Some scenario ∧
  wf_snapshot scenario = true ∧
  clashes scenario = false ∧
  ∃ out rs,
    returned (process_data 0 calm (boot [scenario])) = Some out ∧
    records out = Some rs ∧
    length rs = present_cells scenario ∧
    Forall (λ q, keys_match q ∧ PrimFloat.is_nan (price q) = false) rs.
Proof.
  split; [reflexivity|]. split; [vm_compute; reflexivity|].
  split; [vm_compute; reflexivity|].
  apply (process_data_one_record_per_present_cell calm (boot [scenario]) 0 scenario);
    vm_compute; reflexivity.
Defined.

(** C10: the records come out in column-major order, and a second call on
    the same snapshot object returns the same sequence.  For every
    well-formed snapshot the sequence is the column-major enumeration of the
    present cells (symbols in column order, rows in index order within a
    symbol); it is empty when a symbol is [Datetime] or [Close]. *)
Theorem process_data_column_major env1 env2 w r df :
  heap w !! r = Some df →
  wf_snapshot df = true →
  let first := process_data r env1 w in
  let second := process_data r env2 first.2 in
  ∃ out1 out2 rs,
    returned first = Some out1 ∧ records out1 = Some rs ∧
    returned second = Some out2 ∧ records out2 = Some rs ∧
    rs = (if clashes df then [] else column_major df).
Proof.
  intros Hr Hwf first second. subst first second.
  destruct (process_data_run env1 w r df Hr Hwf) as (out1 & lg1 & -> & Hrec1 & _).
  cbn [snd].
  set (df' := if empty df then df else rename_index "Datetime" df).
  set (w1 := after_process w r out1 lg1).
  assert (heap w1 !! r = Some df') as Hr'.
  { subst w1 df'. by apply after_process_input. }
  assert (wf_snapshot df' = true ∧ clashes df' = clashes df
          ∧ column_major df' = column_major df) as (Hwf' & Hcl & Hcm).
  { subst df'. by destruct (empty df). }
  destruct (process_data_run env2 w1 r df' Hr' Hwf') as (out2 & lg2 & -> & Hrec2 & _).
  rewrite Hcl, Hcm in Hrec2.
  exists out1, out2, (if clashes df then [] else column_major df).
  repeat split; try done.
  - apply after_process_returned.
  - apply after_process_returned.
Qed.

Lemma process_data_column_major_witness :
  heap (boot [scenario]) !! 0 = Some scenario ∧
  wf_snapshot scenario = true ∧
  let first := process_data 0 calm (boot [scenario]) in
  let second := process_data 0 calm first.2 in
  ∃ out1 out2 rs,
    returned first = Some out1 ∧ records out1 = Some rs ∧
    returned second = Some out2 ∧ records out2 = Some rs ∧
    rs = (if clashes scenario then [] else column_major scenario).
Proof.
  split; [reflexivity|]. split; [vm_compute; reflexivity|].
  apply (process_data_column_major calm calm (boot [scenario]) 0 scenario);
    vm_compute; reflexivity.
Defined.

(** C8 (counterexample): after the call the index of the scenario snapshot,
    which had no name, is named [Datetime]. *)
Lemma process_data_renames_index : ¬ leaves_input_unchanged scenario.
Proof.
  intros H. specialize (H calm (boot [scenario]) 0 eq_refl).
  vm_compute in H. discriminate.
Qed.

Ltac outcome_cases :=
  repeat match goal with
    | |- context [match ?o with Ret _ => _ | Raise _ => _ end] =>
        destruct o as [?|[| |??]]
    | |- context [if ?b then _ else _] => destruct b
    end.

(** ** The fetch stage *)

(** C3 (counterexample): with the feed unreachable, [fetch_data] returns a
    frame to its caller; no error surfaces. *)
Lemma fetch_data_swallows_failure : ¬ fetch_failure_surfaces.
Proof.
  intros H.
  destruct (H offline (boot []) ASSETS) as (e & w' & Hrun); [by eexists|].
  vm_compute in Hrun. discriminate.
Qed.

(** Every run of [fetch_data], by what the download does. *)
Lemma fetch_data_run env w assets :
  fetch_data assets env w =
    match download env with
    | Raise (Exception cls msg) =>
        (Ret (length (heap w)),
         after_fetch w assets pd_DataFrame
           [(ERROR, "Error fetching data: " +:+ msg)])
    | Raise e => (Raise e, add_request assets w)
    | Ret data =>
        if quotes_empty data then
          (Ret (length (heap w)),
           after_fetch w assets pd_DataFrame
             [(WARNING, "No data returned from API.")])
        else
          match lookup_field "Close" (q_fields data) with
          | Some cs =>
              (Ret (length (heap w)),
               after_fetch w assets
                 {| index_name := q_index_name data; index := q_index data;
                    columns := cs |} [])
          | None =>
              (Ret (length (heap w)),
               after_fetch w assets pd_DataFrame
                 [(ERROR, "Column 'Close' not found in API response.")])
          end
    end.
Proof.
  unfold fetch_data, try_except, yf_download, after_fetch.
  unfold mbind, M_bind. cbn [add_request].
  destruct (download env) as [data|[| |cls msg]]; try done.
  destruct (quotes_empty data); [done|].
  unfold try_except_cls, lift, quotes_getitem.
  destruct (lookup_field "Close" (q_fields data)).
  - unfold new, set_heap. cbn. by rewrite app_nil_r.
  - by rewrite bool_decide_eq_true_2.
Qed.


(** C3 (amended): when the download raises an error, or answers without
    [Close] prices, [fetch_data] logs the failure (with the cause, for a
    raised error) and returns a new empty frame to its caller; it has made
    exactly one request and changed nothing else. *)
Theorem fetch_data_logs_failure env w assets line :
  fetch_failure env = Some line →
  fetch_data assets env w =
    (Ret (length (heap w)),
     {| heap := heap w ++ [pd_DataFrame];
        index_id := index_id w ++ [fresh_id (index_id w)];
        disk := disk w;
        log := log w ++ [(ERROR, line)]; clock := clock w;
        sleeps := sleeps w; requests := requests w ++ [assets];
        writes := writes w |}).
Proof.
  intros Hfail. rewrite fetch_data_run. unfold fetch_failure in Hfail.
  destruct (download env) as [data|[| |cls msg]]; try done.
  - (* the answer has rows and lacks the Close prices *)
    destruct (quotes_empty data); [done|].
    destruct (lookup_field "Close" (q_fields data)); [done|].
    by injection Hfail as <-.
  - (* the download raised an error *)
    by injection Hfail as <-.
Qed.

Lemma fetch_data_logs_failure_witness :
  fetch_failure offline = Some "Error fetching data: Max retries exceeded" ∧
  fetch_data ASSETS offline (boot []) =
    (Ret 0,
     {| heap := [pd_DataFrame]; index_id := [1]; disk := no_disk;
        log := [(ERROR, "Error fetching data: Max retries exceeded")];
        clock := 34200; sleeps := []; requests := [ASSETS]; writes := [] |}).
Proof.
  split; [reflexivity|].
  apply (fetch_data_logs_failure offline (boot []) ASSETS). reflexivity.
Defined.

(** ** The store writer *)

(** C7: for a frame without rows [save_to_datalake] returns at once and
    leaves the whole world as it was: no directory and no file is created
    under the store root (nor anywhere else), nothing is logged and no write
    is attempted. *)
Theorem save_to_datalake_empty_noop env w df base_path :
  nrows (deref w df) = 0 →
  save_to_datalake df base_path env w = (Ret tt, w).
Proof.
  intros Hrows. unfold save_to_datalake, df_empty, load.
  unfold mbind, M_bind, mret, M_ret.
  assert (empty (deref w df) = true) as ->; [|done].
  unfold empty. unfold nrows in Hrows. by rewrite Hrows.
Qed.

Lemma save_to_datalake_empty_noop_witness :
  nrows (deref (boot [pd_DataFrame]) 0) = 0 ∧
  save_to_datalake 0 BASE_PATH calm (boot [pd_DataFrame])
  = (Ret tt, boot [pd_DataFrame]).
Proof.
  split; [reflexivity|].
  apply (save_to_datalake_empty_noop calm (boot [pd_DataFrame]) 0 BASE_PATH).
  reflexivity.
Defined.

(** C4 (counterexample): with the disk full, [save_to_datalake] returns to
    its caller as after a successful write; no error surfaces. *)
Lemma save_to_datalake_swallows_failure : ¬ write_failure_surfaces.
Proof.
  intros H.
  destruct (H disk_full (boot [tidy_scenario]) 0 BASE_PATH _ _ eq_refl eq_refl)
    as (e & w' & Hrun).
  vm_compute in Hrun. discriminate.
Qed.

(** C4 (amended): when the parquet write of a frame with rows fails with an
    error, [save_to_datalake] logs the failure with the message of its cause
    and returns normally to its caller.  The write was attempted once and
    not again, and the store is left as the failed write left it: with the
    directories it had made and the files it had opened or written when the
    failure struck, and nothing else changed. *)
Theorem save_to_datalake_logs_failure env w df base_path cls msg :
  empty (deref w df) = false →
  disk_fault env = Some (Exception cls msg) →
  save_to_datalake df base_path env w =
    (Ret tt,
     {| heap := heap w; index_id := index_id w;
        disk := to_parquet_torn (reached env) (deref w df) base_path
                  ["ano"; "mes"; "dia"] "snappy" (disk w);
        log := log w ++ [(ERROR, "Error saving to Data Lake: " +:+ msg)];
        clock := clock w; sleeps := sleeps w; requests := requests w;
        writes := writes w ++ [base_path] |}).
Proof.
  intros Hrows Hfault. unfold save_to_datalake, df_empty, load.
  unfold mbind, M_bind, mret, M_ret. rewrite Hrows.
  unfold try_except, datetime_now, df_to_parquet. by rewrite Hfault.
Qed.

Lemma save_to_datalake_logs_failure_witness :
  empty (deref (boot [tidy_scenario]) 0) = false ∧
  disk_fault disk_full = Some (Exception "OSError" "No space left on device") ∧
  save_to_datalake 0 BASE_PATH disk_full (boot [tidy_scenario]) =
    (Ret tt,
     {| heap := [tidy_scenario]; index_id := [0];
        disk :=
          {| files := {[ "datalake/ano=2024/mes=1/dia=2/part.0.parquet"
                         := Truncated ]};
             dirs := {[ "datalake"; "datalake/ano=2024";
                        "datalake/ano=2024/mes=1";
                        "datalake/ano=2024/mes=1/dia=2" ]} |};
        log := [(ERROR, "Error saving to Data Lake: No space left on device")];
        clock := 34200; sleeps := []; requests := [];
        writes := [BASE_PATH] |}).
Proof.
  split; [reflexivity|]. split; [reflexivity|].
  etrans.
  - apply (save_to_datalake_logs_failure disk_full (boot [tidy_scenario]) 0
             BASE_PATH "OSError" "No space left on device");
      reflexivity.
  - vm_compute. reflexivity.
Defined.

(** C2 (the code at the failing input): two writes of the same process, two
    minutes apart, of frames of the same trading day.  The second write
    adds no file to the store: it lands on the name [part.0.parquet] that
    the first one used, in the same partition, and replaces its content; the
    two metadata files at the root are rewritten as well. *)
Theorem save_to_datalake_rewrites_part_file :
  let part := "datalake/ano=2024/mes=1/dia=2/part.0.parquet" in
  let w0 := boot [tidy_scenario; tidy_later] in
  let w1 := (save_to_datalake 0 BASE_PATH calm w0).2 in
  let w2 := (save_to_datalake 1 BASE_PATH calm (advance 120 w1)).2 in
  ∃ a b,
    files (disk w1) !! part = Some a ∧
    files (disk w2) !! part = Some b ∧
    a ≠ b ∧
    dom (files (disk w2)) = dom (files (disk w1)) ∧
    writes w2 = [BASE_PATH; BASE_PATH].
Proof.
  intros part w0 w1 w2. eexists _, _.
  split; [vm_compute; reflexivity|].
  split; [vm_compute; reflexivity|].
  split; [intros [=]|].
  split; vm_compute; reflexivity.
Qed.

(** ** The scheduler loop *)



(** *** What can escape a stage *)

Lemma reset_index_errors df : raises_errors_only (reset_index df).
Proof. unfold reset_index. by case_bool_decide. Qed.

Lemma melt_errors df a b c : raises_errors_only (melt df a b c).
Proof.
  unfold melt. case_bool_decide; [done|]. by destruct (pop _ _) as [[??]|].
Qed.

Lemma dropna_errors df c : raises_errors_only (dropna df c).
Proof. unfold dropna. by destruct (lookup_col _ _). Qed.

Lemma getitem_errors df c : raises_errors_only (getitem df c).
Proof. unfold getitem. by destruct (lookup_col _ _). Qed.

Lemma dt_errors f s : raises_errors_only (dt f s).
Proof. unfold dt. by destruct (mapM _ _). Qed.

Lemma quotes_getitem_errors data f : raises_errors_only (quotes_getitem data f).
Proof. unfold quotes_getitem. by destruct (lookup_field _ _). Qed.

Lemma to_parquet_errors df path cols codec d :
  raises_errors_only (to_parquet df path cols codec d).1.
Proof.
  unfold to_parquet. destruct (mapM _ cols) as [keys|]; [|done].
  by destruct (mapM _ (seq _ _)).
Qed.

Lemma outcome_bind_errors {A B : Type} (o : Outcome A) (f : A → Outcome B) :
  raises_errors_only o → (∀ a, raises_errors_only (f a)) →
  raises_errors_only (o ≫= f).
Proof. destruct o; simpl; auto. Qed.

Section Contained.
Context (env : Ingestor.Env).

Lemma contained_ret {A : Type} (a : A) : contained env (mret a).
Proof. by intros w. Qed.

Lemma contained_bind {A B : Type} (m : M A) (f : A → M B) :
  contained env m → (∀ a, contained env (f a)) → contained env (m ≫= f).
Proof.
  intros Hm Hf w. unfold mbind, M_bind. specialize (Hm w).
  destruct (m env w) as [[a|e] w1]; [apply Hf|done].
Qed.

Lemma contained_lift {A : Type} (o : Outcome A) :
  raises_errors_only o → contained env (lift o).
Proof. by intros Ho w. Qed.

Lemma contained_try_except {A : Type} (body : M A) handler :
  contained env body → (∀ e, contained env (handler e)) →
  contained env (try_except body handler).
Proof.
  intros Hb Hh w. unfold try_except. specialize (Hb w).
  destruct (body env w) as [[a|[| |cls msg]] w1]; try done. apply Hh.
Qed.

Lemma contained_try_except_cls {A : Type} cls (body : M A) handler :
  contained env body → contained env handler →
  contained env (try_except_cls cls body handler).
Proof.
  intros Hb Hh w. unfold try_except_cls. specialize (Hb w).
  destruct (body env w) as [[a|[| |cls' msg]] w1]; try done.
  case_bool_decide; [apply Hh|done].
Qed.

Lemma contained_surroundings {B : Type} (f : Ingestor.Env → M B) :
  contained env (f env) → contained env (surroundings ≫= f).
Proof. intros Hf w. apply Hf. Qed.

Lemma contained_logger l msg : contained env (logger l msg).
Proof. by intros w. Qed.

Lemma contained_new df : contained env (new df).
Proof. by intros w. Qed.

Lemma contained_load r : contained env (load r).
Proof. by intros w. Qed.

Lemma contained_index_set_name r name : contained env (index_set_name r name).
Proof. by intros w. Qed.

Lemma contained_df_empty r : contained env (df_empty r).
Proof. apply contained_bind; [apply contained_load|]. intros; apply contained_ret. Qed.

Lemma contained_sleep secs delivered :
  match delivered with Some e => is_error e = true | None => True end →
  contained env (time_sleep secs delivered).
Proof. intros H w. unfold time_sleep. by destruct delivered. Qed.

End Contained.

(** Under [errors_only], nothing but an error leaves the stages or the body
    of the loop. *)
Section Stages.
Context (env : Ingestor.Env) (Henv : errors_only env = true).

Lemma errors_only_inv :
  raises_errors_only (download env) ∧
  match disk_fault env with Some e => is_error e = true | None => True end ∧
  match interval_nap env with Some e => is_error e = true | None => True end.
Proof.
  unfold errors_only in Henv.
  apply andb_prop in Henv as [H12 H3]. apply andb_prop in H12 as [H1 H2].
  repeat split.
  - by destruct (download env).
  - by destruct (disk_fault env).
  - by destruct (interval_nap env).
Qed.

Lemma contained_yf_download assets : contained env (yf_download assets).
Proof. intros w. apply errors_only_inv. Qed.

Lemma contained_to_parquet r path cols codec :
  contained env (df_to_parquet r path cols codec).
Proof.
  intros w. unfold df_to_parquet.
  destruct errors_only_inv as (_ & Hdisk & _).
  destruct (disk_fault env); [done|].
  pose proof (to_parquet_errors (deref w r) path cols codec (disk w)) as H.
  by destruct (to_parquet _ _ _ _ _).
Qed.

Ltac pure_errors :=
  lazymatch goal with
  | |- raises_errors_only (mbind _ _) =>
      apply outcome_bind_errors; [pure_errors | intros ?; pure_errors]
  | |- _ =>
      first [ apply reset_index_errors | apply melt_errors | apply dropna_errors
            | apply getitem_errors | apply dt_errors
            | apply quotes_getitem_errors ]
  end.

Ltac contain_with leaf :=
  lazymatch goal with
  | |- contained _ (mbind _ surroundings) =>
      apply contained_surroundings; contain_with leaf
  | |- contained _ (mbind _ _) =>
      apply contained_bind; [contain_with leaf | intros ?; contain_with leaf]
  | |- contained _ (try_except _ _) =>
      apply contained_try_except; [contain_with leaf | intros ?; contain_with leaf]
  | |- contained _ (try_except_cls _ _ _) =>
      apply contained_try_except_cls; contain_with leaf
  | |- contained _ (if _ then _ else _) =>
      match goal with |- contained _ (if ?b then _ else _) => destruct b end;
      contain_with leaf
  | |- contained _ (let _ := _ in _) => cbv zeta; contain_with leaf
  | |- contained _ (lift _) => apply contained_lift; pure_errors
  | |- _ =>
      first [ leaf
            | apply contained_ret | apply contained_logger | apply contained_new
            | apply contained_load | apply contained_index_set_name
            | apply contained_df_empty | apply contained_yf_download
            | apply contained_to_parquet | by intros ? ]
  end.

Ltac contain := contain_with fail.

Lemma contained_fetch_data assets : contained env (fetch_data assets).
Proof. unfold fetch_data. contain. Qed.

Lemma contained_process_data r : contained env (process_data r).
Proof. unfold process_data. contain. Qed.

Lemma contained_save_to_datalake r base_path :
  contained env (save_to_datalake r base_path).
Proof. unfold save_to_datalake, datetime_now. contain. Qed.

Lemma contained_main_body : contained env main_body.
Proof.
  unfold main_body.
  contain_with
    ltac:(first [ apply contained_fetch_data | apply contained_process_data
                | apply contained_save_to_datalake
                | apply contained_sleep; apply errors_only_inv ]).
Qed.

End Stages.

Lemma main_iteration_continues env w :
  errors_only env = true → backoff_nap env = None →
  ∃ w', main_iteration env w = (Ret Continue, w').
Proof.
  intros Henv Hnap. unfold main_iteration.
  pose proof (contained_main_body env Henv w) as Hbody.
  destruct (main_body env w) as [[[]|[| |cls msg]] w1]; try done.
  - by eexists.
  - unfold mbind, M_bind, logger_critical, logger, time_sleep.
    rewrite Hnap. by eexists.
Qed.

(** ** The dashboard on a store without records *)

Lemma lookup_col_label c (cs : list (string * Series)) :
  c ∈ cs.*1 → is_Some (lookup_col c cs).
Proof.
  induction cs as [|[l s] cs IH]; simpl; intros H.
  - by apply elem_of_nil in H.
  - case_bool_decide; [by eexists|]. apply IH.
    apply elem_of_cons in H as [->|H]; done.
Qed.

Lemma load_data_body_recordless env s path :
  no_records env path →
  ∃ df es,
    Dashboard.load_data_body path env s =
      (Ret df, {| Dashboard.cache := Dashboard.cache s;
                  Dashboard.page := Dashboard.page s ++ es |}) ∧
    empty df = true.
Proof.
  intros Hnone.
  unfold Dashboard.load_data_body, Dashboard.try_except, Dashboard.os_exists.
  unfold mbind, Dashboard.St_bind, mret, Dashboard.St_ret.
  destruct (os_path_exists (Dashboard.store env) path) eqn:Hex; cbn [negb].
  2:{ exists pd_DataFrame, []. rewrite app_nil_r. by destruct s. }
  destruct Hnone as [?|Hread]; [congruence|].
  unfold Dashboard.surroundings, Dashboard.lift, recordless in *.
  destruct (Dashboard.read_parquet env path) as [df|[| |cls msg]]; try done.
  - apply Nat.eqb_eq in Hread.
    assert (∀ c x, empty (setitem df c x) = true) as Hset.
    { intros. unfold empty, setitem, nrows in *. cbn. by rewrite Hread. }
    assert (empty df = true) as Hdf.
    { unfold empty, nrows in *. by rewrite Hread. }
    case_bool_decide as Hlabel.
    + unfold getitem. destruct (lookup_col_label _ _ Hlabel) as [col ->].
      destruct (Dashboard.to_datetime _ col) as [col'|[| |cls msg]] eqn:Hconv.
      * exists (setitem df "Datetime" col'), []. rewrite app_nil_r.
        split; [by destruct s|done].
      * unfold Dashboard.to_datetime in Hconv. by destruct (mapM _ _).
      * unfold Dashboard.to_datetime in Hconv. by destruct (mapM _ _).
      * by exists pd_DataFrame, [Dashboard.Error ("Error loading data: " +:+ msg)].
    + exists df, []. rewrite app_nil_r. split; [by destruct s|done].
  - by exists pd_DataFrame, [Dashboard.Error ("Error loading data: " +:+ msg)].
Qed.

Lemma load_data_recordless env s path :
  no_records env path → cache_sound s path →
  ∃ df es s',
    Dashboard.load_data path env s = (Ret df, s') ∧
    empty df = true ∧
    Dashboard.page s' = Dashboard.page s ++ es ∧
    cache_sound s' path.
Proof.
  intros Hnone Hsound. unfold Dashboard.load_data, Dashboard.cache_data.
  destruct (load_data_body_recordless env s path Hnone) as (df & es & -> & Hdf).
  cbn [Dashboard.page Dashboard.cache].
  assert (cache_sound
            {| Dashboard.cache :=
                 <[path := {| Dashboard.computed_at := Dashboard.now env;
                              Dashboard.value := df;
                              Dashboard.rendered :=
                                drop (length (Dashboard.page s)) (Dashboard.page s ++ es) |}]>
                   (Dashboard.cache s);
               Dashboard.page := Dashboard.page s ++ es |} path) as Hnew.
  { intros entry. cbn. rewrite lookup_insert_eq. by intros [= <-]. }
  destruct (Dashboard.cache s !! path) as [entry|] eqn:Hentry.
  - destruct (_ <? _)%Z.
    + exists (Dashboard.value entry), (Dashboard.rendered entry). eexists.
      split; [done|]. split; [by apply Hsound|]. split; [done|].
      intros entry'. cbn. apply Hsound.
    + by exists df, es; eexists.
  - by exists df, es; eexists.
Qed.

(** C9: when the store directory is missing or holds no records (and what
    the cache holds, if anything, is such an empty result), [load_data]
    returns an empty frame and raises nothing, for every path; and for the
    dashboard's own path [main] returns normally with, as last element of
    the page, the warning that the directory was not found or the note that
    no data is available yet.  The cache stays as assumed, so this holds
    run after run. *)
Theorem dashboard_tolerates_empty_store env s path :
  no_records env path →
  cache_sound s path →
  (∃ df s',
     Dashboard.load_data path env s = (Ret df, s') ∧
     empty df = true ∧ cache_sound s' path) ∧
  (path = Dashboard.DATA_PATH →
   ∃ s' notice,
     Dashboard.main env s = (Ret tt, s') ∧
     last (Dashboard.page s') = Some notice ∧ is_notice notice ∧
     cache_sound s' path).
Proof.
  intros Hnone Hsound. split.
  - destruct (load_data_recordless env s path Hnone Hsound)
      as (df & es & s' & Hrun & Hdf & _ & Hs'). by exists df, s'.
  - intros ->. unfold Dashboard.main, Dashboard.st_title, Dashboard.render.
    unfold mbind at 1 2, Dashboard.St_bind at 1 2, Dashboard.os_exists.
    destruct (os_path_exists _ _) eqn:Hex; cbn [negb].
    + unfold mbind at 1, Dashboard.St_bind at 1.
      set (s0 := {| Dashboard.cache := _ |}).
      assert (cache_sound s0 Dashboard.DATA_PATH) as Hs0 by done.
      destruct (load_data_recordless env s0 _ Hnone Hs0)
        as (df & es & s' & -> & -> & _ & Hs').
      eexists _, _. unfold Dashboard.st_info, Dashboard.render.
      split; [done|]. cbn. rewrite last_snoc. split; [done|].
      split; [by right|]. done.
    + eexists _, _. unfold Dashboard.st_warning, Dashboard.render.
      split; [done|]. cbn. rewrite last_snoc. split; [done|].
      split; [by left|]. done.
Qed.

Lemma dashboard_tolerates_empty_store_witness :
  no_records bare_directory Dashboard.DATA_PATH ∧
  cache_sound fresh_session Dashboard.DATA_PATH ∧
  (∃ df s',
     Dashboard.load_data Dashboard.DATA_PATH bare_directory fresh_session
       = (Ret df, s') ∧
     empty df = true ∧ cache_sound s' Dashboard.DATA_PATH) ∧
  (Dashboard.DATA_PATH = Dashboard.DATA_PATH →
   ∃ s' notice,
     Dashboard.main bare_directory fresh_session = (Ret tt, s') ∧
     last (Dashboard.page s') = Some notice ∧ is_notice notice ∧
     cache_sound s' Dashboard.DATA_PATH).
Proof.
  assert (no_records bare_directory Dashboard.DATA_PATH) as Hnone.
  { right. reflexivity. }
  assert (cache_sound fresh_session Dashboard.DATA_PATH) as Hsound.
  { intros entry Hentry. vm_compute in Hentry. discriminate. }
  split; [exact Hnone|]. split; [exact Hsound|].
  exact (dashboard_tolerates_empty_store bare_directory fresh_session
           Dashboard.DATA_PATH Hnone Hsound).
Defined.

(** * Further properties of the code *)

(** ** The tidy frame *)

Lemma tidy_chain (ts : list Timestamp) (cols : list (string * list float))
    (df : DataFrame) :
  typed ts cols df →
  ∃ d ano mes dia,
    dropna (melted df) "Close" = Ret d ∧
    (s ← getitem d "Datetime"; dt year s) = Ret ano ∧
    (s ← getitem (setitem d "ano" ano) "Datetime"; dt month s) = Ret mes ∧
    (s ← getitem (setitem (setitem d "ano" ano) "mes" mes) "Datetime"; dt day s)
      = Ret dia ∧
    setitem (setitem (setitem d "ano" ano) "mes" mes) "dia" dia = tidy_frame df.
Proof.
  intros Hty. destruct (tidy_rows _ _ _ Hty) as [Ha _].
  unfold dropna, melted. cbn [columns lookup_col]. labels.
  cbn [fmap list_fmap fst snd].
  do 4 eexists. split; [reflexivity|].
  unfold getitem, setitem. cbn [columns lookup_col index index_name]. labels.
  cbn [mbind Outcome_bind]. rewrite Ha, dt_times.
  split; [reflexivity|].
  by_labels. rewrite dt_times.
  split; [reflexivity|].
  by_labels. rewrite dt_times.
  split; [reflexivity|].
  unfold tidy_frame. by_labels. rewrite Ha, <- !list_fmap_compose. reflexivity.
Qed.

(** On a well-formed, non-empty snapshot without clashing symbols, the call
    names the index, logs nothing and returns the tidy frame. *)
Lemma process_data_tidy_run env w r df :
  heap w !! r = Some df → wf_snapshot df = true →
  empty df = false → clashes df = false →
  process_data r env w =
    (Ret (length (heap w)),
     {| heap := named "Datetime" r w ++ [tidy_frame df];
        index_id := index_id w ++ [fresh_id (index_id w)];
        disk := disk w; log := log w; clock := clock w;
        sleeps := sleeps w; requests := requests w; writes := writes w |}).
Proof.
  intros Hr Hwf He Hclash. pose proof (deref_lookup _ _ _ Hr) as Hd.
  destruct (wf_snapshot_typed _ Hwf) as (ts & cols & Hty).
  unfold clashes in Hclash. apply orb_false_elim in Hclash as [Hdt Hcl].
  unfold process_data, df_empty, load.
  unfold mbind, M_bind, mret, M_ret. rewrite Hd, He.
  unfold try_except, index_set_name. rewrite (deref_named _ _ _ _ Hr).
  unfold reset_index, lift. cbn [index_name rename_index].
  change (labels (rename_index "Datetime" df)) with (labels df).
  change (nrows (rename_index "Datetime" df)) with (nrows df).
  change (index (rename_index "Datetime" df)) with (index df).
  change (columns (rename_index "Datetime" df)) with (columns df).
  rewrite Hdt. unfold labels at 1. cbn [columns fmap list_fmap fst].
  rewrite (bool_decide_eq_true_2 _ (list_elem_of_here _ _)). cbn [negb].
  apply bool_decide_eq_false_1 in Hcl. rewrite (melt_reset_index _ Hcl).
  destruct (tidy_chain _ _ _ Hty) as (d & ano & mes & dia & -> & H1 & H2 & H3 & <-).
  unfold mbind in H1, H2, H3. rewrite H1, H2, H3.
  unfold new, add_frame, set_heap. cbn. by rewrite length_named.
Qed.


Lemma select_present_length {A : Type} (s : list Value) (l : list A) :
  length l = length s →
  length (select ((λ v, negb (isna v)) <$> s) l) = length (List.filter present s).
Proof.
  revert l. induction s as [|v s IH]; intros [|x l] Hlen; try done.
  simpl in *. unfold present at 1.
  destruct (negb (isna v)); simpl; rewrite IH by lia; done.
Qed.

Lemma present_concat (cs : list (string * Series)) :
  length (List.filter present (concat (snd <$> cs)))
  = sum_list ((λ c, length (List.filter present c.2)) <$> cs).
Proof.
  induction cs as [|c cs IH]; [done|].
  rewrite !fmap_cons. simpl. by rewrite List.filter_app, length_app, IH.
Qed.

Lemma length_tile (a : Series) k : length (tile a k) = k * length a.
Proof.
  unfold tile. induction k as [|k IH]; [done|].
  simpl. rewrite length_app, IH. lia.
Qed.

Lemma length_repeat_each ls n : length (repeat_each ls n) = length ls * n.
Proof.
  unfold repeat_each. induction ls as [|l ls IH]; [done|].
  rewrite bind_cons, length_app, length_replicate, IH. simpl. lia.
Qed.

Lemma length_concat_columns (cs : list (string * Series)) n :
  Forall (λ c, length c.2 = n) cs →
  length (concat (snd <$> cs)) = length cs * n.
Proof.
  induction 1 as [|c cs Hc _ IH]; [done|].
  rewrite fmap_cons. simpl. rewrite length_app, IH, Hc. lia.
Qed.

Lemma typed_columns ts cols df :
  typed ts cols df →
  nrows df = length ts ∧ Forall (λ c, length c.2 = length ts) (columns df).
Proof.
  intros (Hi & Hc & Hshape). unfold nrows. rewrite Hi, Hc, length_fmap.
  split; [done|]. apply Forall_fmap.
  eapply Forall_impl; [exact Hshape|]. intros c Hlen. simpl.
  by rewrite length_fmap.
Qed.

Lemma tidy_frame_shape ts cols df :
  typed ts cols df →
  labels (tidy_frame df) = ["Datetime"; "Ticker"; "Close"; "ano"; "mes"; "dia"] ∧
  Forall (λ c, length c.2 = present_cells df) (columns (tidy_frame df)) ∧
  nrows (tidy_frame df) = present_cells df.
Proof.
  intros Hty. destruct (typed_columns _ _ _ Hty) as [Hn Hcols].
  pose proof (length_concat_columns _ _ Hcols) as Hcat.
  split; [done|].
  assert (∀ (A : Type) (l : list A),
            length l = length (columns df) * length ts →
            length (select ((λ v, negb (isna v)) <$> concat (snd <$> columns df)) l)
            = present_cells df) as Hsel.
  { intros A l Hl. rewrite select_present_length by lia.
    apply present_concat. }
  assert (length (tile (index df) (length (columns df)))
          = length (columns df) * length ts) as Htile.
  { rewrite length_tile. unfold nrows in Hn. by rewrite Hn. }
  split.
  - unfold tidy_frame. cbn [columns].
    repeat constructor; cbn [snd]; rewrite ?length_fmap; apply Hsel; try done.
    unfold labels. rewrite length_repeat_each, length_fmap, Hn. done.
  - unfold nrows, tidy_frame. cbn [index]. apply Hsel.
    rewrite length_RangeIndex, Hn. lia.
Qed.

(** X1: on a well-formed, non-empty snapshot without clashing symbols the
    returned frame has the columns [Datetime], [Ticker], [Close], [ano],
    [mes], [dia], in this order, each with as many entries as the snapshot
    has present cells, and as many rows; nothing is logged. *)
Theorem process_data_schema env w r df :
  heap w !! r = Some df →
  wf_snapshot df = true →
  empty df = false →
  clashes df = false →
  ∃ out,
    returned (process_data r env w) = Some out ∧
    labels out = ["Datetime"; "Ticker"; "Close"; "ano"; "mes"; "dia"] ∧
    Forall (λ c, length c.2 = present_cells df) (columns out) ∧
    nrows out = present_cells df ∧
    log (process_data r env w).2 = log w.
Proof.
  intros Hr Hwf He Hclash.
  rewrite (process_data_tidy_run env w r df Hr Hwf He Hclash).
  destruct (wf_snapshot_typed _ Hwf) as (ts & cols & Hty).
  destruct (tidy_frame_shape _ _ _ Hty) as (Hl & Hc & Hn).
  exists (tidy_frame df). split; [|done].
  cbn. apply list_lookup_middle. by rewrite length_named.
Qed.

Lemma process_data_schema_witness :
  heap (boot [scenario]) !! 0 = Some scenario ∧
  wf_snapshot scenario = true ∧
  empty scenario = false ∧
  clashes scenario = false ∧
  ∃ out,
    returned (process_data 0 calm (boot [scenario])) = Some out ∧
    labels out = ["Datetime"; "Ticker"; "Close"; "ano"; "mes"; "dia"] ∧
    Forall (λ c, length c.2 = present_cells scenario) (columns out) ∧
    nrows out = present_cells scenario ∧
    log (process_data 0 calm (boot [scenario])).2 = log (boot [scenario]).
Proof.
  split; [reflexivity|]. split; [vm_compute; reflexivity|].
  split; [reflexivity|]. split; [vm_compute; reflexivity|].
  apply (process_data_schema calm (boot [scenario]) 0 scenario);
    vm_compute; reflexivity.
Defined.


(** ** What [process_data] does on any frame *)

Ltac pure_outcome :=
  lazymatch goal with
  | |- raises_errors_only (Outcome_bind _ _ _ _) =>
      apply (outcome_bind_errors _ _); [pure_outcome | intros ?; pure_outcome]
  | |- raises_errors_only (mbind _ _) =>
      apply outcome_bind_errors; [pure_outcome | intros ?; pure_outcome]
  | |- _ =>
      first [ apply reset_index_errors | apply melt_errors | apply dropna_errors
            | apply getitem_errors | apply dt_errors
            | apply quotes_getitem_errors ]
  end.

Ltac pure_case :=
  match goal with
  | |- context [match ?o with Ret _ => _ | Raise _ => _ end] =>
      let H := fresh "Herr" in
      assert (raises_errors_only o) as H by pure_outcome;
      destruct o as [?|[| |??]]; [ | done | done | ]; clear H
  | |- context [if ?b then _ else _] => destruct b
  end.

Lemma process_data_effects env w r :
  ∃ out lg,
    process_data r env w = (Ret (length (heap w)), after_process w r out lg) ∧
    (lg = [] ∨ ∃ msg, lg = [(ERROR, msg)] ∧ out = pd_DataFrame).
Proof.
  unfold process_data, df_empty, load, after_process.
  unfold mbind, M_bind, mret, M_ret.
  destruct (empty (deref w r)) eqn:He.
  { exists pd_DataFrame, []. unfold new, add_frame. cbn. rewrite app_nil_r.
    split; [done|by left]. }
  unfold try_except, index_set_name, lift, logger_error, logger, new, add_frame.
  repeat pure_case; cbn; rewrite ?length_named;
    first [ by eexists _, []; rewrite app_nil_r; split; [done|left]
          | by eexists pd_DataFrame, [_]; split; [done|right; eexists] ].
Qed.

(** C8 (amended): the call changes nothing of any frame but the name of
    the [Index] object of the snapshot, which becomes [Datetime] unless the
    snapshot is empty.  The change shows in the snapshot and in every other
    frame that holds the same [Index] object; a frame with an index of its
    own is as it was; index values, column labels and cells stay
    everywhere.  The call adds one frame, with a new index, and leaves the
    store, the clock and the record of sleeps, requests and writes alone; it
    may append to the log. *)
Theorem process_data_only_names_index env w r df :
  heap w !! r = Some df →
  let w' := (process_data r env w).2 in
  heap w' !! r =
    Some {| index_name := if empty df then index_name df else Some "Datetime";
            index := index df; columns := columns df |} ∧
  (∀ r' df', heap w !! r' = Some df' →
     heap w' !! r' =
       Some {| index_name := if negb (empty df) && shares_index w r r'
                             then Some "Datetime" else index_name df';
               index := index df'; columns := columns df' |}) ∧
  length (heap w') = S (length (heap w)) ∧
  index_id w' = index_id w ++ [fresh_id (index_id w)] ∧
  disk w' = disk w ∧ clock w' = clock w ∧
  sleeps w' = sleeps w ∧ requests w' = requests w ∧ writes w' = writes w ∧
  ∃ lg, log w' = log w ++ lg.
Proof.
  intros Hr w'. subst w'. pose proof (deref_lookup _ _ _ Hr) as Hd.
  destruct (process_data_effects env w r) as (out & lg & -> & _).
  cbn [snd]. split; [|split; [|split]].
  - rewrite (after_process_input _ _ _ _ _ Hr). by destruct (empty df), df.
  - intros r' df' Hr'. rewrite (after_process_lookup _ _ _ _ _ _ Hr'), Hd.
    by destruct (negb (empty df) && shares_index w r r'), df'.
  - unfold after_process. cbn [heap].
    rewrite length_app, length_after_process_heap. cbn. lia.
  - repeat split; try done. by exists lg.
Qed.

Lemma process_data_only_names_index_witness :
  heap one_answer !! 0 = Some scenario ∧
  let w' := (process_data 0 calm one_answer).2 in
  heap w' !! 0 =
    Some {| index_name := if empty scenario then index_name scenario
                          else Some "Datetime";
            index := index scenario; columns := columns scenario |} ∧
  (∀ r' df', heap one_answer !! r' = Some df' →
     heap w' !! r' =
       Some {| index_name := if negb (empty scenario) && shares_index one_answer 0 r'
                             then Some "Datetime" else index_name df';
               index := index df'; columns := columns df' |}) ∧
  length (heap w') = S (length (heap one_answer)) ∧
  index_id w' = index_id one_answer ++ [fresh_id (index_id one_answer)] ∧
  disk w' = disk one_answer ∧ clock w' = clock one_answer ∧
  sleeps w' = sleeps one_answer ∧ requests w' = requests one_answer ∧
  writes w' = writes one_answer ∧
  ∃ lg, log w' = log one_answer ++ lg.
Proof.
  split; [reflexivity|].
  apply (process_data_only_names_index calm one_answer 0 scenario).
  reflexivity.
Defined.


(** X2: [process_data] never raises, whatever frame it is given, well formed
    or not: it returns a new frame object (a reference that named nothing
    before the call, hence never the input itself), and whenever it logs an
    error the frame it returns is the empty [pd.DataFrame()]. *)
Theorem process_data_never_raises env w r :
  ∃ out w',
    process_data r env w = (Ret (length (heap w)), w') ∧
    heap w !! length (heap w) = None ∧
    heap w' !! length (heap w) = Some out ∧
    (log w' = log w ∨
     ∃ msg, log w' = log w ++ [(ERROR, msg)] ∧ out = pd_DataFrame).
Proof.
  destruct (process_data_effects env w r) as (out & lg & -> & Hlg).
  eexists out, _. split; [done|]. split; [by apply lookup_ge_None_2|].
  split.
  - apply after_process_returned.
  - cbn. destruct Hlg as [->|(msg & -> & ->)].
    + left. by rewrite app_nil_r.
    + right. by exists msg.
Qed.

Lemma column_major_cells df q :
  q ∈ column_major df →
  ∃ vals i,
    (symbol q, vals) ∈ columns df ∧
    index df !! i = Some (VTime (timestamp q)) ∧
    vals !! i = Some (VFloat (price q)).
Proof.
  unfold column_major. intros Hq.
  apply list_elem_of_bind in Hq as ([sym vals] & Hq & Hc).
  apply list_elem_of_omap in Hq as ([t v] & Hcell & Hrec).
  apply elem_of_lookup_zip_with in Hcell as (i & t' & v' & [= <- <-] & Ht & Hv).
  unfold cell_record in Hrec.
  destruct t as [| t | |]; try done. destruct v as [p| | |]; try done.
  destruct (is_nan p); [done|]. injection Hrec as <-.
  exists vals, i. cbn in *. done.
Qed.

(** X3: the transform invents nothing.  Every record that [process_data]
    returns for a well-formed snapshot is a cell of that snapshot: its
    symbol labels a column, its timestamp stands at some row of the index
    and its price is the cell of that column at that row, unchanged. *)
Theorem process_data_records_are_cells env w r df out rs q :
  heap w !! r = Some df →
  wf_snapshot df = true →
  returned (process_data r env w) = Some out →
  records out = Some rs →
  q ∈ rs →
  ∃ vals i,
    (symbol q, vals) ∈ columns df ∧
    index df !! i = Some (VTime (timestamp q)) ∧
    vals !! i = Some (VFloat (price q)).
Proof.
  intros Hr Hwf Hout Hrs Hq.
  destruct (process_data_run env w r df Hr Hwf) as (out' & lg & Hrun & Hrec & _).
  rewrite Hrun in Hout. cbn [returned] in Hout.
  rewrite after_process_returned in Hout.
  injection Hout as <-. rewrite Hrec in Hrs. injection Hrs as <-.
  destruct (clashes df); [by apply elem_of_nil in Hq|].
  by apply column_major_cells.
Qed.

Lemma process_data_records_are_cells_witness :
  heap (boot [scenario]) !! 0 = Some scenario ∧
  wf_snapshot scenario = true ∧
  returned (process_data 0 calm (boot [scenario])) = Some tidy_scenario ∧
  records tidy_scenario =
    Some (quote <$> [ (at_2024_01_02 9 30, ("AAA", 10.5%float));
                      (at_2024_01_02 9 31, ("AAA", 10.75%float));
                      (at_2024_01_02 9 31, ("BBB", 20.25%float)) ]) ∧
  quote (at_2024_01_02 9 31, ("BBB", 20.25%float))
    ∈ quote <$> [ (at_2024_01_02 9 30, ("AAA", 10.5%float));
                  (at_2024_01_02 9 31, ("AAA", 10.75%float));
                  (at_2024_01_02 9 31, ("BBB", 20.25%float)) ] ∧
  ∃ vals i,
    ("BBB", vals) ∈ columns scenario ∧
    index scenario !! i = Some (VTime (at_2024_01_02 9 31)) ∧
    vals !! i = Some (VFloat 20.25).
Proof.
  assert (quote (at_2024_01_02 9 31, ("BBB", 20.25%float))
    ∈ quote <$> [ (at_2024_01_02 9 30, ("AAA", 10.5%float));
                  (at_2024_01_02 9 31, ("AAA", 10.75%float));
                  (at_2024_01_02 9 31, ("BBB", 20.25%float)) ]) as Hin.
  { cbn. do 2 apply list_elem_of_further. apply list_elem_of_here. }
  split; [reflexivity|]. split; [vm_compute; reflexivity|].
  split; [reflexivity|]. split; [reflexivity|]. split; [exact Hin|].
  exact (process_data_records_are_cells calm (boot [scenario]) 0 scenario
           tidy_scenario _ _ eq_refl eq_refl eq_refl eq_refl Hin).
Defined.


(** ** What [save_to_datalake] does on any frame *)

Lemma foldl_insert_dom (parts : list (string * File)) (m : gmap string File) :
  dom m ⊆ dom (foldl (λ m pf, <[pf.1 := pf.2]> m) m parts).
Proof.
  revert m. induction parts as [|pf parts IH]; intros m; [done|].
  cbn [foldl]. etrans; [|apply IH]. apply dom_insert_subseteq.
Qed.

Lemma to_parquet_grows df path cols codec d :
  dom (files d) ⊆ dom (files (to_parquet df path cols codec d).2) ∧
  dirs d ⊆ dirs (to_parquet df path cols codec d).2.
Proof.
  unfold to_parquet. destruct (mapM _ cols) as [keys|]; [|done].
  destruct (mapM _ (seq _ _)) as [chains|]; [|done].
  cbn [snd files dirs]. split.
  - etrans; [apply foldl_insert_dom|].
    etrans; [apply dom_insert_subseteq|]. apply dom_insert_subseteq.
  - set_solver.
Qed.

(** The write that succeeds puts the whole dataset on the disk, and the
    write that fails a part of it: had the failure found every path
    written, the disk would be that of the completed write. *)
Lemma to_parquet_dataset df path cols codec d :
  to_parquet df path cols codec d =
    match dataset df path cols codec with
    | Raise e => (Raise e, d)
    | Ret (ds, fs) =>
        (Ret tt,
         {| files := foldl (λ m pf, <[pf.1 := pf.2]> m) (files d) fs;
            dirs := dirs d ∪ list_to_set (path :: ds) |})
    end.
Proof.
  unfold to_parquet, dataset. destruct (mapM _ cols) as [keys|]; [|done].
  destruct (mapM _ (seq _ _)) as [chains|]; [|done].
  rewrite foldl_app. cbn [foldl fst snd list_to_set].
  by rewrite (assoc_L (∪)).
Qed.

Lemma to_parquet_torn_written df path cols codec d :
  (to_parquet df path cols codec d).1 = Ret tt →
  to_parquet_torn (λ _, Written) df path cols codec d
  = (to_parquet df path cols codec d).2.
Proof.
  rewrite to_parquet_dataset. unfold to_parquet_torn.
  destruct (dataset df path cols codec) as [[ds fs]|e]; [|done].
  intros _. cbn [fst snd]. f_equal.
  assert (∀ l : list string,
            filter (λ p, touched (λ _, Written) p) l = l) as ->; [|done].
  induction l as [|p l IH]; [done|]. by rewrite filter_cons_True, IH.
Qed.

Lemma foldl_leave_dom reached (fs : list (string * File)) (m : gmap string File) :
  dom m ⊆ dom (foldl (leave reached) m fs).
Proof.
  revert m. induction fs as [|pf fs IH]; intros m; [done|].
  cbn [foldl]. etrans; [|apply IH]. unfold leave.
  destruct (reached pf.1); [done|apply dom_insert_subseteq..].
Qed.

Lemma to_parquet_torn_grows reached df path cols codec d :
  dom (files d) ⊆ dom (files (to_parquet_torn reached df path cols codec d)) ∧
  dirs d ⊆ dirs (to_parquet_torn reached df path cols codec d).
Proof.
  unfold to_parquet_torn. cbn [files dirs]. split.
  - apply foldl_leave_dom.
  - set_solver.
Qed.

Lemma save_to_datalake_effects env w r base_path :
  ∃ o d lg ws,
    save_to_datalake r base_path env w =
      (o, {| heap := heap w; index_id := index_id w;
             disk := d; log := log w ++ lg; clock := clock w;
             sleeps := sleeps w; requests := requests w;
             writes := writes w ++ ws |}) ∧
    dom (files (disk w)) ⊆ dom (files d) ∧ dirs (disk w) ⊆ dirs d ∧
    (ws = [] ∨ ws = [base_path]) ∧
    (o = Ret tt ∨
     ∃ e, o = Raise e ∧ disk_fault env = Some e ∧ is_error e = false).
Proof.
  unfold save_to_datalake, df_empty, load.
  unfold mbind, M_bind, mret, M_ret.
  destruct (empty (deref w r)).
  { exists (Ret tt), (disk w), [], []. rewrite !app_nil_r.
    split; [by destruct w|]. repeat split; auto. }
  unfold try_except, datetime_now, df_to_parquet, logger_info, logger_error, logger.
  pose proof (to_parquet_torn_grows (reached env) (deref w r) base_path
                ["ano"; "mes"; "dia"] "snappy" (disk w)) as [Htf Htd].
  destruct (disk_fault env) as [[| |cls msg]|] eqn:Hfault.
  - eexists (Raise KeyboardInterrupt), _, [], [base_path].
    rewrite app_nil_r. repeat split; eauto.
  - eexists (Raise SystemExit), _, [], [base_path].
    rewrite app_nil_r. repeat split; eauto.
  - eexists (Ret tt), _, [(ERROR, "Error saving to Data Lake: " +:+ msg)],
      [base_path]. repeat split; eauto.
  - pose proof (to_parquet_errors (deref w r) base_path ["ano"; "mes"; "dia"]
                  "snappy" (disk w)) as Herr.
    pose proof (to_parquet_grows (deref w r) base_path ["ano"; "mes"; "dia"]
                  "snappy" (disk w)) as [Hfiles Hdirs].
    cbn [disk add_write].
    destruct (to_parquet _ _ _ _ _) as [[[]|[| |cls msg]] d]; try done.
    + exists (Ret tt), d, [(INFO, "Data saved successfully to " +:+ base_path)],
        [base_path]. repeat split; eauto.
    + exists (Ret tt), d, [(ERROR, "Error saving to Data Lake: " +:+ msg)],
        [base_path]. repeat split; eauto.
Qed.

(** X4: [save_to_datalake] never deletes.  Whatever the frame, the store
    root and the outcome of the write, every file name and every directory
    present before the call is present after it; the call changes no frame
    object and neither sleeps nor calls the feed, and it makes at most one
    write attempt. *)
Theorem save_to_datalake_never_deletes env w df base_path :
  let w' := (save_to_datalake df base_path env w).2 in
  dom (files (disk w)) ⊆ dom (files (disk w')) ∧
  dirs (disk w) ⊆ dirs (disk w') ∧
  heap w' = heap w ∧ clock w' = clock w ∧ sleeps w' = sleeps w ∧
  requests w' = requests w ∧
  (writes w' = writes w ∨ writes w' = writes w ++ [base_path]).
Proof.
  destruct (save_to_datalake_effects env w df base_path)
    as (o & d & lg & ws & Hrun & Hfiles & Hdirs & Hws & _).
  rewrite Hrun. cbn. repeat split; try done.
  destruct Hws as [->| ->]; [left; by rewrite app_nil_r|by right].
Qed.

(** X5: a frame with rows that lacks one of the partition columns [ano],
    [mes], [dia] is not written: the failure of the parquet write is logged
    as an error, no file of the store is created or changed, and the call
    returns normally. *)
Theorem save_to_datalake_missing_partition_column env w df base_path col :
  empty (deref w df) = false →
  col ∈ ["ano"; "mes"; "dia"] →
  lookup_col col (columns (deref w df)) = None →
  disk_fault env = None →
  ∃ w' msg,
    save_to_datalake df base_path env w = (Ret tt, w') ∧
    files (disk w') = files (disk w) ∧
    log w' = log w ++ [(ERROR, msg)].
Proof.
  intros He Hcol Hmiss Hfault.
  unfold save_to_datalake, df_empty, load.
  unfold mbind, M_bind, mret, M_ret. rewrite He.
  unfold try_except, datetime_now, df_to_parquet, logger_info, logger_error, logger.
  rewrite Hfault. unfold to_parquet.
  assert (mapM (λ c, (λ s, (c, s)) <$> lookup_col c (columns (deref w df)))
            ["ano"; "mes"; "dia"] = None) as ->.
  { apply mapM_None_2. apply Exists_exists. exists col.
    split; [done|]. by rewrite Hmiss. }
  by eexists _, _.
Qed.

Lemma save_to_datalake_missing_partition_column_witness :
  empty (deref (boot [scenario]) 0) = false ∧
  "ano" ∈ ["ano"; "mes"; "dia"] ∧
  lookup_col "ano" (columns (deref (boot [scenario]) 0)) = None ∧
  disk_fault calm = None ∧
  ∃ w' msg,
    save_to_datalake 0 BASE_PATH calm (boot [scenario]) = (Ret tt, w') ∧
    files (disk w') = files (disk (boot [scenario])) ∧
    log w' = log (boot [scenario]) ++ [(ERROR, msg)].
Proof.
  assert ("ano" ∈ ["ano"; "mes"; "dia"]) as Hin by apply list_elem_of_here.
  split; [reflexivity|]. split; [exact Hin|].
  split; [reflexivity|]. split; [reflexivity|].
  exact (save_to_datalake_missing_partition_column calm (boot [scenario]) 0
           BASE_PATH "ano" eq_refl Hin eq_refl eq_refl).
Defined.


(** ** One cycle of the loop, whatever the surroundings do *)

Lemma fetch_data_facts env w assets :
  ∃ o w1,
    fetch_data assets env w = (o, w1) ∧
    requests w1 = requests w ++ [assets] ∧ writes w1 = writes w ∧
    disk w1 = disk w ∧ clock w1 = clock w ∧ sleeps w1 = sleeps w ∧
    match o with
    | Ret _ => True
    | Raise e => download env = Raise e ∧ is_error e = false
    end.
Proof.
  rewrite fetch_data_run.
  destruct (download env) as [data|[| |cls msg]]; try by eexists _, _.
  destruct (quotes_empty data); [by eexists _, _|].
  destruct (lookup_field _ _); by eexists _, _.
Qed.

Lemma process_data_facts env w r :
  ∃ r' w1,
    process_data r env w = (Ret r', w1) ∧
    requests w1 = requests w ∧ writes w1 = writes w ∧
    disk w1 = disk w ∧ clock w1 = clock w ∧ sleeps w1 = sleeps w.
Proof.
  destruct (process_data_effects env w r) as (out & lg & -> & _).
  by eexists _, _.
Qed.

Lemma save_to_datalake_facts env w r base_path :
  ∃ o w1,
    save_to_datalake r base_path env w = (o, w1) ∧
    requests w1 = requests w ∧
    (writes w1 = writes w ∨ writes w1 = writes w ++ [base_path]) ∧
    dom (files (disk w)) ⊆ dom (files (disk w1)) ∧
    dirs (disk w) ⊆ dirs (disk w1) ∧
    clock w1 = clock w ∧ sleeps w1 = sleeps w ∧
    match o with
    | Ret _ => True
    | Raise e => disk_fault env = Some e ∧ is_error e = false
    end.
Proof.
  destruct (save_to_datalake_effects env w r base_path)
    as (o & d & lg & ws & -> & Hfiles & Hdirs & Hws & Ho).
  eexists _, _. split; [done|]. cbn. repeat split; try done.
  - destruct Hws as [->| ->]; [left; by rewrite app_nil_r|by right].
  - destruct Ho as [->|(e & -> & He)]; done.
Qed.

Lemma main_body_effects env w :
  ∃ o w',
    main_body env w = (o, w') ∧
    requests w' = requests w ++ [ASSETS] ∧
    (writes w' = writes w ∨ writes w' = writes w ++ [BASE_PATH]) ∧
    dom (files (disk w)) ⊆ dom (files (disk w')) ∧
    dirs (disk w) ⊆ dirs (disk w') ∧
    match o with
    | Ret _ =>
        interval_nap env = None ∧
        clock w' = (clock w + INTERVAL_SECONDS)%Z ∧
        sleeps w' = sleeps w ++ [INTERVAL_SECONDS]
    | Raise e =>
        clock w' = clock w ∧
        ((interval_nap env = Some e ∧ sleeps w' = sleeps w ++ [INTERVAL_SECONDS]) ∨
         (is_error e = false ∧ sleeps w' = sleeps w ∧
          (download env = Raise e ∨ disk_fault env = Some e)))
    end.
Proof.
  unfold main_body, df_empty, load.
  unfold mbind, M_bind, mret, M_ret, logger_info, logger_warning, logger,
    surroundings, time_sleep.
  destruct (fetch_data_facts env (add_log INFO "Fetching market data..." w) ASSETS)
    as (o1 & w1 & -> & Hq1 & Hw1 & Hd1 & Hc1 & Hs1 & Ho1).
  cbn [requests writes disk clock sleeps add_log] in *.
  destruct o1 as [df_raw|e].
  2:{ destruct Ho1 as [Hdl He]. eexists _, _. split; [done|].
      rewrite Hd1. repeat split; auto. }
  lazymatch goal with
  | |- ∃ o w', (let (_, _) := ?m in _) = _ ∧ _ => set (mid := m)
  end.
  assert (∃ o2 w2,
    mid = (o2, w2) ∧
    requests w2 = requests w1 ∧
    (writes w2 = writes w1 ∨ writes w2 = writes w1 ++ [BASE_PATH]) ∧
    dom (files (disk w1)) ⊆ dom (files (disk w2)) ∧
    dirs (disk w1) ⊆ dirs (disk w2) ∧
    clock w2 = clock w1 ∧ sleeps w2 = sleeps w1 ∧
    match o2 with
    | Ret _ => True
    | Raise e => disk_fault env = Some e ∧ is_error e = false
    end) as (o2 & w2 & Hmid & Hq2 & Hw2 & Hf2 & Hdr2 & Hc2 & Hs2 & Ho2).
  { subst mid. destruct (negb (empty (deref w1 df_raw))); cbv beta;
      [|by eexists _, _; auto 10].
    destruct (process_data_facts env w1 df_raw)
      as (r' & wp & -> & Hqp & Hwp & Hdp & Hcp & Hsp).
    destruct (negb (empty (deref wp r'))); cbv beta.
    - destruct (save_to_datalake_facts env wp r' BASE_PATH)
        as (o & ws & -> & Hqs & Hws & Hfs & Hds & Hcs & Hss & Hos).
      eexists _, _. split; [done|].
      rewrite Hqs, Hcs, Hss, <- Hdp, <- Hwp. repeat split; auto; congruence.
    - eexists _, _. split; [done|]. cbn. rewrite Hdp. repeat split; auto. }
  rewrite Hmid. rewrite Hd1 in Hf2, Hdr2.
  assert (writes w2 = writes w ∨ writes w2 = writes w ++ [BASE_PATH]) as Hw.
  { destruct Hw2 as [Hw2|Hw2]; [left|right]; congruence. }
  destruct o2 as [[]|e].
  2:{ destruct Ho2 as [Hdf He]. eexists _, _. split; [done|].
      repeat split; auto; try congruence. right. repeat split; auto; congruence. }
  destruct (interval_nap env) as [e|] eqn:Hnap.
  - eexists _, _. split; [done|]. cbn.
    repeat split; auto; try congruence. left. split; [done|]. congruence.
  - eexists _, _. split; [done|]. cbn.
    repeat split; auto; congruence.
Qed.


Lemma main_iteration_effects env w :
  ∃ o w',
    main_iteration env w = (o, w') ∧
    requests w' = requests w ++ [ASSETS] ∧
    (writes w' = writes w ∨ writes w' = writes w ++ [BASE_PATH]) ∧
    dom (files (disk w)) ⊆ dom (files (disk w')) ∧
    dirs (disk w) ⊆ dirs (disk w') ∧
    match o with
    | Ret Continue =>
        (interval_nap env = None ∧
         clock w' = (clock w + 120)%Z ∧ sleeps w' = sleeps w ++ [120%Z]) ∨
        ((∃ cls msg, interval_nap env = Some (Exception cls msg)) ∧
         backoff_nap env = None ∧
         clock w' = (clock w + 60)%Z ∧ sleeps w' = sleeps w ++ [120%Z; 60%Z])
    | Ret Break => delivered env KeyboardInterrupt
    | Raise e =>
        (e = SystemExit ∧ delivered env SystemExit) ∨
        (backoff_nap env = Some e ∧
         ∃ cls msg, interval_nap env = Some (Exception cls msg))
    end.
Proof.
  unfold main_iteration, delivered.
  destruct (main_body_effects env w)
    as (o & w1 & -> & Hq & Hw & Hf & Hd & Ho).
  unfold mbind, M_bind, mret, M_ret, logger_info, logger_critical, logger,
    time_sleep.
  destruct o as [[]|[| |cls msg]].
  - destruct Ho as (Hnap & Hc & Hs). eexists _, _. split; [done|].
    repeat split; auto.
  - destruct Ho as (Hc & [[Hnap Hs]|(_ & Hs & [Hdl|Hdf])]);
      (eexists _, _; split; [done|]); cbn; repeat split; auto.
  - destruct Ho as (Hc & [[Hnap Hs]|(_ & Hs & [Hdl|Hdf])]);
      (eexists _, _; split; [done|]); cbn; repeat split; auto 6.
  - destruct Ho as (Hc & [[Hnap Hs]|(? & _)]); [|done].
    destruct (backoff_nap env) as [e|] eqn:Hback;
      (eexists _, _; split; [done|]); cbn; repeat split; auto.
    + right. split; [done|]. by eexists _, _.
    + right. split; [by eexists _, _|]. split; [done|].
      rewrite Hc, Hs, <- app_assoc. done.
Qed.

(** ** Critical failures and the end of the loop *)

(** As long as the surroundings raise nothing but errors in the body of
    the loop, and nothing during the backoff sleep, the loop is running and
    has gone through every cycle: one request to the feed for each. *)
Lemma main_loop_running envs w :
  Forall (λ env, errors_only env = true ∧ backoff_nap env = None) envs →
  (main_loop envs w).1 = Running ∧
  requests (main_loop envs w).2 = requests w ++ replicate (length envs) ASSETS.
Proof.
  intros Henvs. revert w.
  induction Henvs as [|env envs [Henv Hnap] _ IH]; intros w.
  { cbn. by rewrite app_nil_r. }
  cbn [main_loop].
  destruct (main_iteration_continues env w Henv Hnap) as [w' Hit].
  destruct (main_iteration_effects env w) as (o & w1 & Hit' & Hq & _).
  rewrite Hit in Hit'. injection Hit' as <- <-. rewrite Hit.
  destruct (IH w') as [Hrun Hreq]. split; [done|].
  rewrite Hreq, Hq, <- app_assoc. done.
Qed.

(** C6 (counterexample): an error raised while the handler of a critical
    failure sleeps leaves [main]: an error has ended the process. *)
Lemma main_ended_by_handler_error : ¬ survives_every_error.
Proof.
  intros H.
  assert (Forall (λ env, errors_throughout env = true) [handler_fault]) as Hin
    by (repeat constructor).
  specialize (H [handler_fault] (boot []) Hin).
  vm_compute in H. discriminate.
Qed.

(** C6 (amended): an error that escapes the body of the [try] is logged as
    critical and followed by a sleep of 60 seconds, after which the loop
    goes on with the next cycle, unless something is raised during that
    sleep: the handler is not guarded, and whatever is raised there, an
    error too, ends the process.  A stop signal raised by the body ends the
    loop in order, an exit request raised by the body ends the process.
    Errors raised in the body alone never end the loop: after any number of
    such cycles it is running and has called the feed once per cycle. *)
Theorem main_backs_off_and_survives :
  (∀ env envs w w1 cls msg,
     main_body env w = (Raise (Exception cls msg), w1) →
     backoff_nap env = None →
     main_loop (env :: envs) w =
       main_loop envs
         (advance 60 (add_sleep 60
            (add_log CRITICAL ("Critical error in main loop: " +:+ msg) w1)))) ∧
  (∀ env envs w w1 cls msg e,
     main_body env w = (Raise (Exception cls msg), w1) →
     backoff_nap env = Some e →
     main_loop (env :: envs) w =
       (Crashed e,
        add_sleep 60
          (add_log CRITICAL ("Critical error in main loop: " +:+ msg) w1))) ∧
  (∀ env envs w w1,
     main_body env w = (Raise KeyboardInterrupt, w1) →
     main_loop (env :: envs) w =
       (Stopped, add_log INFO "Service stopped by user." w1)) ∧
  (∀ env envs w w1,
     main_body env w = (Raise SystemExit, w1) →
     main_loop (env :: envs) w = (Crashed SystemExit, w1)) ∧
  (∀ envs w,
     Forall (λ env, errors_only env = true ∧ backoff_nap env = None) envs →
     (main_loop envs w).1 = Running ∧
     requests (main_loop envs w).2
     = requests w ++ replicate (length envs) ASSETS).
Proof.
  repeat split.
  - intros env envs w w1 cls msg Hbody Hnap. cbn [main_loop].
    unfold main_iteration. rewrite Hbody.
    unfold mbind, M_bind, logger_critical, logger, time_sleep.
    by rewrite Hnap.
  - intros env envs w w1 cls msg e Hbody Hnap. cbn [main_loop].
    unfold main_iteration. rewrite Hbody.
    unfold mbind, M_bind, logger_critical, logger, time_sleep.
    by rewrite Hnap.
  - intros env envs w w1 Hbody. cbn [main_loop].
    unfold main_iteration. by rewrite Hbody.
  - intros env envs w w1 Hbody. cbn [main_loop].
    unfold main_iteration. by rewrite Hbody.
  - by apply main_loop_running.
  - by apply main_loop_running.
Qed.

Lemma main_backs_off_and_survives_witness :
  (∃ w1,
     main_body glitch (boot [])
     = (Raise (Exception "RuntimeError" "unexpected fault"), w1) ∧
     backoff_nap glitch = None ∧
     main_loop [glitch; calm] (boot []) =
       main_loop [calm]
         (advance 60 (add_sleep 60
            (add_log CRITICAL "Critical error in main loop: unexpected fault"
               w1)))) ∧
  (∃ w1,
     main_body handler_fault (boot [])
     = (Raise (Exception "RuntimeError" "unexpected fault"), w1) ∧
     backoff_nap handler_fault = Some (Exception "RuntimeError" "second fault") ∧
     main_loop [handler_fault; calm] (boot []) =
       (Crashed (Exception "RuntimeError" "second fault"),
        add_sleep 60
          (add_log CRITICAL "Critical error in main loop: unexpected fault"
             w1))) ∧
  (∃ w1,
     main_body interrupted (boot []) = (Raise KeyboardInterrupt, w1) ∧
     main_loop [interrupted; calm] (boot []) =
       (Stopped, add_log INFO "Service stopped by user." w1)) ∧
  (∃ w1,
     main_body exit_requested (boot []) = (Raise SystemExit, w1) ∧
     main_loop [exit_requested; calm] (boot []) = (Crashed SystemExit, w1)) ∧
  Forall (λ env, errors_only env = true ∧ backoff_nap env = None)
    [offline; glitch; disk_full; calm] ∧
  (main_loop [offline; glitch; disk_full; calm] (boot [])).1 = Running ∧
  requests (main_loop [offline; glitch; disk_full; calm] (boot [])).2
  = requests (boot [])
    ++ replicate (length [offline; glitch; disk_full; calm]) ASSETS.
Proof.
  destruct main_backs_off_and_survives
    as (Hcritical & Hhandler & Hstop & Hexit & Hrun).
  split; [|split; [|split; [|split; [|split]]]].
  - eexists. split; [vm_compute; reflexivity|]. split; [reflexivity|].
    apply (Hcritical glitch [calm] (boot []) _ "RuntimeError" "unexpected fault");
      vm_compute; reflexivity.
  - eexists. split; [vm_compute; reflexivity|]. split; [reflexivity|].
    apply (Hhandler handler_fault [calm] (boot []) _
             "RuntimeError" "unexpected fault");
      vm_compute; reflexivity.
  - eexists. split; [vm_compute; reflexivity|].
    apply (Hstop interrupted [calm] (boot [])). vm_compute; reflexivity.
  - eexists. split; [vm_compute; reflexivity|].
    apply (Hexit exit_requested [calm] (boot [])). vm_compute; reflexivity.
  - repeat constructor.
  - apply (Hrun [offline; glitch; disk_full; calm] (boot [])).
    repeat constructor.
Defined.


(** X7: the loop never deletes from the store.  After any number of cycles,
    whatever the feed, the disk and the signals did, every file name and
    every directory that was on disk when [main] started is still there. *)
Theorem main_never_deletes envs w :
  let w' := (main envs w).2 in
  dom (files (disk w)) ⊆ dom (files (disk w')) ∧
  dirs (disk w) ⊆ dirs (disk w').
Proof.
  unfold main.
  change (disk w) with
    (disk (add_log INFO "Starting Financial Data Ingestion Service..." w)).
  generalize (add_log INFO "Starting Financial Data Ingestion Service..." w).
  clear w. induction envs as [|env envs IH]; intros w; [done|].
  cbn [main_loop].
  destruct (main_iteration_effects env w) as (o & w1 & -> & _ & _ & Hf & Hd & _).
  destruct o as [[]|e]; cbn [snd]; [|done..].
  destruct (IH w1) as [Hf' Hd']. split; etrans; eauto.
Qed.

(** X8: the loop never spins.  As long as it is running, [n] cycles have
    taken at least [60 n] seconds of sleep (120 for a normal cycle, 60 after
    a critical error) and have called the feed exactly [n] times. *)
Theorem main_never_spins envs w :
  (main_loop envs w).1 = Running →
  (clock w + 60 * Z.of_nat (length envs) ≤ clock (main_loop envs w).2)%Z ∧
  requests (main_loop envs w).2 = requests w ++ replicate (length envs) ASSETS.
Proof.
  revert w. induction envs as [|env envs IH]; intros w Hrun.
  { cbn. rewrite app_nil_r. split; [lia|done]. }
  cbn [main_loop] in *.
  destruct (main_iteration_effects env w) as (o & w1 & Hit & Hq & _ & _ & _ & Ho).
  rewrite Hit in *. destruct o as [[]|e]; try done.
  destruct (IH w1 Hrun) as [Hc Hr]. rewrite Hr, Hq, <- app_assoc.
  split; [|done]. cbn [length].
  destruct Ho as [(_ & Hc1 & _)|(_ & _ & Hc1 & _)]; lia.
Qed.

Lemma main_never_spins_witness :
  (main_loop [calm; glitch; offline] (boot [])).1 = Running ∧
  (clock (boot []) + 60 * Z.of_nat (length [calm; glitch; offline])
   ≤ clock (main_loop [calm; glitch; offline] (boot [])).2)%Z ∧
  requests (main_loop [calm; glitch; offline] (boot [])).2
  = requests (boot []) ++ replicate (length [calm; glitch; offline]) ASSETS.
Proof.
  assert ((main_loop [calm; glitch; offline] (boot [])).1 = Running) as Hrun.
  { vm_compute. reflexivity. }
  split; [exact Hrun|].
  exact (main_never_spins [calm; glitch; offline] (boot []) Hrun).
Defined.



(** ** Writing the tidy frame *)

Lemma hive_chain_tidy (base : string) (a : list Timestamp) :
  mapM (hive_chain base
          [ ("ano", cal year <$> (VTime <$> a));
            ("mes", cal month <$> (VTime <$> a));
            ("dia", cal day <$> (VTime <$> a)) ])
       (seq 0 (length a))
  = Some (partition_chain base <$> a).
Proof.
  apply mapM_Some_2, Forall2_same_length_lookup_2.
  { by rewrite length_seq, length_fmap. }
  intros i j chain Hj Hchain.
  apply lookup_seq in Hj as [-> _].
  apply list_lookup_fmap_Some in Hchain as (t & -> & Ht).
  cbn [hive_chain Nat.add]. rewrite !list_lookup_fmap, Ht. reflexivity.
Qed.

Lemma foldl_insert_is_Some (parts : list (string * File)) (m : gmap string File) k :
  k ∈ parts.*1 →
  is_Some (foldl (λ m pf, <[pf.1 := pf.2]> m) m parts !! k).
Proof.
  revert m. induction parts as [|pf parts IH]; intros m Hk.
  - by apply elem_of_nil in Hk.
  - cbn [foldl]. rewrite fmap_cons in Hk.
    destruct (decide (k ∈ parts.*1)) as [Hin|Hnot]; [by apply IH|].
    apply elem_of_cons in Hk as [->|Hk]; [|done].
    apply elem_of_dom. apply (foldl_insert_dom parts).
    apply elem_of_dom. rewrite lookup_insert_eq. by eexists.
Qed.

Lemma to_parquet_tidy ts cols df base d :
  typed ts cols df →
  ∃ a d',
    lookup_col "Datetime" (columns (tidy_frame df)) = Some (VTime <$> a) ∧
    to_parquet (tidy_frame df) base ["ano"; "mes"; "dia"] "snappy" d
      = (Ret tt, d') ∧
    ∀ t, t ∈ a →
      partition_dir base t ∈ dirs d' ∧
      (partition_dir base t +:+ "/" +:+ part_name) ∈ dom (files d').
Proof.
  intros Hty. destruct (tidy_rows _ _ _ Hty) as [Ha _].
  destruct (tidy_frame_shape _ _ _ Hty) as (_ & Hlen & Hn).
  set (a := select _ (cols ≫= _)) in Ha.
  assert (nrows (tidy_frame df) = length a) as Hrows.
  { rewrite Hn. unfold tidy_frame in Hlen. cbn [columns] in Hlen.
    apply Forall_cons_1 in Hlen as [Hlen _]. cbn [snd] in Hlen.
    by rewrite Ha, length_fmap in Hlen. }
  exists a. eexists. split.
  { unfold tidy_frame. cbn [columns lookup_col]. labels. by rewrite Ha. }
  unfold to_parquet. rewrite Hrows.
  unfold tidy_frame at 1. cbn [columns]. rewrite Ha.
  assert (∀ (x1 x2 x3 y m dd : Series),
    mapM (λ c, (λ s, (c, s)) <$>
                 lookup_col c [("Datetime", x1); ("Ticker", x2); ("Close", x3);
                               ("ano", y); ("mes", m); ("dia", dd)])
         ["ano"; "mes"; "dia"]
    = Some [("ano", y); ("mes", m); ("dia", dd)]) as Hkeys.
  { intros. apply mapM_Some_2. repeat constructor; cbn [lookup_col]; labels; done. }
  rewrite Hkeys, hive_chain_tidy.
  split; [reflexivity|].
  intros t Ht. cbn [dirs files]. split.
  - apply elem_of_union_r, elem_of_list_to_set, list_elem_of_In, in_concat.
    exists (partition_chain base t). split.
    + apply list_elem_of_In, list_elem_of_fmap_2, Ht.
    + right. right. by left.
  - apply elem_of_dom. rewrite !lookup_insert_is_Some'. right. right.
    apply foldl_insert_is_Some.
    rewrite <- list_fmap_compose.
    apply (list_elem_of_fmap_2' _ _ (partition_dir base t)); [|done].
    apply elem_of_remove_dups.
    rewrite <- list_fmap_compose.
    by apply (list_elem_of_fmap_2' _ _ t).
Qed.


Lemma records_timestamps out rs col q :
  records out = Some rs →
  lookup_col "Datetime" (columns out) = Some col →
  q ∈ rs →
  VTime (timestamp q) ∈ col.
Proof.
  unfold records. intros Hrs Hcol Hq.
  destruct (columns out) as [|c cs] eqn:Hcs.
  { injection Hrs as <-. by apply elem_of_nil in Hq. }
  rewrite Hcol in Hrs. cbn [mbind option_bind] in Hrs.
  destruct (lookup_col "Ticker" _) as [b|]; [|done].
  destruct (lookup_col "Close" _) as [p|]; [|done].
  destruct (lookup_col "ano" _) as [y|]; [|done].
  destruct (lookup_col "mes" _) as [m|]; [|done].
  destruct (lookup_col "dia" _) as [d|]; [|done].
  cbn [mbind option_bind] in Hrs. apply mapM_Some_1 in Hrs.
  apply list_elem_of_lookup in Hq as [i Hi].
  destruct (Forall2_lookup_r _ _ _ _ _ Hrs Hi) as ([t rest] & Hrow & Hrec).
  apply list_elem_of_lookup_2 in Hrow. apply elem_of_zip_l in Hrow.
  unfold as_record in Hrec.
  destruct t as [| t | |]; try done.
  destruct rest as [[| |s|] [[p'| | |] [[| | |y'] [[| | |m'] [| | |d']]]]]; try done.
  by injection Hrec as <-.
Qed.

Lemma records_tidy_frame (env : Ingestor.Env) w r df :
  heap w !! r = Some df → wf_snapshot df = true →
  empty df = false → clashes df = false →
  records (tidy_frame df) = Some (column_major df).
Proof.
  intros Hr Hwf He Hclash.
  destruct (process_data_run env w r df Hr Hwf) as (out & lg & Hrun & Hrec & _).
  rewrite (process_data_tidy_run env w r df Hr Hwf He Hclash) in Hrun.
  unfold after_process in Hrun. injection Hrun as Hheap _. apply app_inj_tail in Hheap as [_ <-].
  by rewrite Hclash in Hrec.
Qed.

Lemma save_tidy_frame env w r ts cols df base_path :
  typed ts cols df →
  deref w r = tidy_frame df →
  0 < present_cells df →
  disk_fault env = None →
  ∃ a d',
    lookup_col "Datetime" (columns (tidy_frame df)) = Some (VTime <$> a) ∧
    save_to_datalake r base_path env w =
      (Ret tt,
       {| heap := heap w; index_id := index_id w; disk := d';
          log := log w ++ [(INFO, "Data saved successfully to " +:+ base_path)];
          clock := clock w; sleeps := sleeps w; requests := requests w;
          writes := writes w ++ [base_path] |}) ∧
    ∀ t, t ∈ a →
      partition_dir base_path t ∈ dirs d' ∧
      (partition_dir base_path t +:+ "/" +:+ part_name) ∈ dom (files d').
Proof.
  intros Hty Hd Hpos Hfault.
  destruct (to_parquet_tidy _ _ _ base_path (disk w) Hty) as (a & d' & Hcol & Hrun & Hparts).
  destruct (tidy_frame_shape _ _ _ Hty) as (_ & _ & Hn).
  exists a, d'. split; [done|]. split; [|done].
  unfold save_to_datalake, df_empty, load.
  unfold mbind, M_bind, mret, M_ret. rewrite Hd.
  assert (empty (tidy_frame df) = false) as ->.
  { unfold empty. fold (nrows (tidy_frame df)). rewrite Hn.
    destruct (present_cells df); [lia|done]. }
  unfold try_except, datetime_now, df_to_parquet, logger_info, logger.
  rewrite Hfault, Hd. cbn [disk add_write]. by rewrite Hrun.
Qed.

(** ** The content of the part files *)

Lemma list_ascii_of_string_app (s1 s2 : string) :
  String.list_ascii_of_string (s1 +:+ s2)
  = String.list_ascii_of_string s1 ++ String.list_ascii_of_string s2.
Proof. induction s1 as [|a s1 IH]; [done|]. simpl. by rewrite IH. Qed.

Lemma part_name_inj (l l' : string) :
  l +:+ "/" +:+ part_name = l' +:+ "/" +:+ part_name → l = l'.
Proof.
  intros H. apply (f_equal String.list_ascii_of_string) in H.
  rewrite !list_ascii_of_string_app in H. apply app_inv_tail in H.
  rewrite <- (String.string_of_list_ascii_of_string l), H.
  apply String.string_of_list_ascii_of_string.
Qed.

Lemma part_name_not_metadata (l path s : string) :
  s ∈ ["/_metadata"; "/_common_metadata"] →
  l +:+ "/" +:+ part_name ≠ path +:+ s.
Proof.
  intros Hs H. apply (f_equal String.list_ascii_of_string) in H.
  rewrite !list_ascii_of_string_app in H. apply (f_equal last) in H.
  rewrite !last_app in H.
  apply elem_of_cons in Hs as [->|Hs]; [by vm_compute in H|].
  apply elem_of_cons in Hs as [->|Hs]; [by vm_compute in H|].
  by apply elem_of_nil in Hs.
Qed.

Lemma foldl_insert_lookup_ne (parts : list (string * File))
    (m : gmap string File) k :
  k ∉ parts.*1 →
  foldl (λ m pf, <[pf.1 := pf.2]> m) m parts !! k = m !! k.
Proof.
  revert m. induction parts as [|pf parts IH]; intros m Hk; [done|].
  rewrite fmap_cons in Hk. apply not_elem_of_cons in Hk as [Hne Hk].
  cbn [foldl]. rewrite IH by done. by apply lookup_insert_ne.
Qed.

Lemma foldl_insert_parts (g : string → File) (ls : list string)
    (m : gmap string File) l0 :
  l0 ∈ ls →
  foldl (λ m pf, <[pf.1 := pf.2]> m) m
        ((λ l, (l +:+ "/" +:+ part_name, g l)) <$> ls)
    !! (l0 +:+ "/" +:+ part_name)
  = Some (g l0).
Proof.
  revert m. induction ls as [|l ls IH]; intros m Hin.
  { by apply elem_of_nil in Hin. }
  rewrite fmap_cons. cbn [foldl fst snd].
  destruct (decide (l0 ∈ ls)) as [Hls|Hls]; [by apply IH|].
  apply elem_of_cons in Hin as [->|Hin]; [|done].
  rewrite foldl_insert_lookup_ne.
  - by rewrite lookup_insert_eq.
  - rewrite <- list_fmap_compose. intros Hk.
    apply list_elem_of_fmap in Hk as (l' & Heq & Hl').
    cbn in Heq. apply part_name_inj in Heq as <-. done.
Qed.

(** A row that the mask keeps has its place among the rows kept, the same
    in every column. *)
Lemma select_row (mask : list bool) i :
  mask !! i = Some true →
  ∃ j, ∀ (A : Type) (l : list A) x, l !! i = Some x → select mask l !! j = Some x.
Proof.
  revert i. induction mask as [|b mask IH]; intros [|i] Hi; try done.
  - injection Hi as ->. exists 0. by intros A [|y l] x.
  - destruct (IH i Hi) as [j Hj].
    exists (if b then S j else j). intros A [|y l] x Hx; [done|].
    cbn in Hx. cbn [select]. destruct b; by apply Hj.
Qed.

(** The records of a frame are its rows. *)
Lemma records_rows out rs q A B C :
  records out = Some rs →
  lookup_col "Datetime" (columns out) = Some A →
  lookup_col "Ticker" (columns out) = Some B →
  lookup_col "Close" (columns out) = Some C →
  q ∈ rs →
  ∃ i, A !! i = Some (VTime (timestamp q)) ∧
       B !! i = Some (VStr (symbol q)) ∧
       C !! i = Some (VFloat (price q)).
Proof.
  unfold records. intros Hrs HA HB HC Hq.
  destruct (columns out) as [|c0 cs] eqn:Hcs; [done|].
  rewrite HA, HB, HC in Hrs. cbn [mbind option_bind] in Hrs.
  destruct (lookup_col "ano" _) as [y|]; [|done].
  destruct (lookup_col "mes" _) as [m|]; [|done].
  destruct (lookup_col "dia" _) as [d|]; [|done].
  cbn [mbind option_bind] in Hrs. apply mapM_Some_1 in Hrs.
  apply list_elem_of_lookup in Hq as [i Hi].
  destruct (Forall2_lookup_r _ _ _ _ _ Hrs Hi) as (row & Hrow & Hrec).
  exists i.
  apply lookup_zip_with_Some in Hrow as (va & r1 & -> & Ha & Hrow).
  apply lookup_zip_with_Some in Hrow as (vb & r2 & -> & Hb & Hrow).
  apply lookup_zip_with_Some in Hrow as (vc & r3 & -> & Hc & _).
  unfold as_record in Hrec.
  destruct va as [| t | |]; try done.
  destruct vb as [| |s|]; try done.
  destruct vc as [p| | |]; try done.
  destruct r3 as [[| | |y'] [[| | |m'] [| | |d']]]; try done.
  by injection Hrec as <-.
Qed.

Lemma to_parquet_tidy_rows ts cols df base d :
  typed ts cols df →
  ∃ A B C,
    lookup_col "Datetime" (columns (tidy_frame df)) = Some A ∧
    lookup_col "Ticker" (columns (tidy_frame df)) = Some B ∧
    lookup_col "Close" (columns (tidy_frame df)) = Some C ∧
    ∀ i t, A !! i = Some (VTime t) →
      ∃ a b c j,
        files (to_parquet (tidy_frame df) base ["ano"; "mes"; "dia"] "snappy" d).2
          !! (partition_dir base t +:+ "/" +:+ part_name)
        = Some (PartFile "snappy" [("Datetime", a); ("Ticker", b); ("Close", c)]) ∧
        ∀ x y z, A !! i = Some x → B !! i = Some y → C !! i = Some z →
          a !! j = Some x ∧ b !! j = Some y ∧ c !! j = Some z.
Proof.
  intros Hty. destruct (tidy_rows _ _ _ Hty) as [Ha _].
  destruct (tidy_frame_shape _ _ _ Hty) as (_ & Hlen & Hn).
  set (a := select _ (cols ≫= _)) in Ha.
  assert (nrows (tidy_frame df) = length a) as Hrows.
  { rewrite Hn. unfold tidy_frame in Hlen. cbn [columns] in Hlen.
    apply Forall_cons_1 in Hlen as [Hlen _]. cbn [snd] in Hlen.
    by rewrite Ha, length_fmap in Hlen. }
  do 3 eexists.
  split. { unfold tidy_frame. cbn [columns lookup_col]. labels. reflexivity. }
  split. { unfold tidy_frame. cbn [columns lookup_col]. labels. reflexivity. }
  split. { unfold tidy_frame. cbn [columns lookup_col]. labels. reflexivity. }
  intros i t Hi. rewrite Ha in Hi.
  apply list_lookup_fmap_Some in Hi as (t' & [= <-] & Hi).
  set (leaves := leaf base <$> (partition_chain base <$> a)).
  assert (leaves !! i = Some (partition_dir base t)) as Hleaf.
  { subst leaves. by rewrite !list_lookup_fmap, Hi. }
  destruct (select_row ((λ l', bool_decide (l' = partition_dir base t)) <$> leaves) i)
    as [j Hj].
  { rewrite list_lookup_fmap, Hleaf. cbn. by rewrite bool_decide_eq_true_2. }
  eexists _, _, _, j. split.
  - unfold to_parquet. rewrite Hrows. unfold tidy_frame. cbn [columns].
    rewrite Ha.
    assert (∀ (x1 x2 x3 y m dd : Series),
      mapM (λ c, (λ s, (c, s)) <$>
                   lookup_col c [("Datetime", x1); ("Ticker", x2); ("Close", x3);
                                 ("ano", y); ("mes", m); ("dia", dd)])
           ["ano"; "mes"; "dia"]
      = Some [("ano", y); ("mes", m); ("dia", dd)]) as Hkeys.
    { intros. apply mapM_Some_2. repeat constructor; cbn [lookup_col]; labels; done. }
    rewrite Hkeys, hive_chain_tidy. cbn [snd files].
    assert (∀ (x1 x2 x3 y m dd : Series),
      filter (λ c : string * Series, c.1 ∉ ["ano"; "mes"; "dia"])
             [("Datetime", x1); ("Ticker", x2); ("Close", x3);
              ("ano", y); ("mes", m); ("dia", dd)]
      = [("Datetime", x1); ("Ticker", x2); ("Close", x3)]) as Hdata.
    { intros. by vm_compute. }
    rewrite Hdata. cbn [fmap list_fmap fst snd].
    rewrite !lookup_insert_ne.
    2:{ intros Heq. symmetry in Heq. revert Heq. apply part_name_not_metadata.
        apply list_elem_of_here. }
    2:{ intros Heq. symmetry in Heq. revert Heq. apply part_name_not_metadata.
        apply list_elem_of_further, list_elem_of_here. }
    fold leaves.
    rewrite (foldl_insert_parts
               (λ l, PartFile "snappy"
                       [("Datetime", select ((λ l', bool_decide (l' = l)) <$> leaves) _);
                        ("Ticker", select ((λ l', bool_decide (l' = l)) <$> leaves) _);
                        ("Close", select ((λ l', bool_decide (l' = l)) <$> leaves) _)])).
    + reflexivity.
    + apply elem_of_remove_dups. by eapply list_elem_of_lookup_2.
  - intros x y z Hx Hy Hz. rewrite Ha in Hx. repeat split; by apply Hj.
Qed.

Lemma save_tidy_frame_disk env w r ts cols df base_path :
  typed ts cols df →
  deref w r = tidy_frame df →
  0 < present_cells df →
  disk_fault env = None →
  disk (save_to_datalake r base_path env w).2
  = (to_parquet (tidy_frame df) base_path ["ano"; "mes"; "dia"] "snappy" (disk w)).2.
Proof.
  intros Hty Hd Hpos Hfault.
  destruct (to_parquet_tidy _ _ _ base_path (disk w) Hty) as (a & d' & _ & Hrun & _).
  destruct (tidy_frame_shape _ _ _ Hty) as (_ & _ & Hn).
  unfold save_to_datalake, df_empty, load.
  unfold mbind, M_bind, mret, M_ret. rewrite Hd.
  assert (empty (tidy_frame df) = false) as ->.
  { unfold empty. fold (nrows (tidy_frame df)). rewrite Hn.
    destruct (present_cells df); [lia|done]. }
  unfold try_except, datetime_now, df_to_parquet, logger_info, logger.
  rewrite Hfault, Hd. cbn [disk add_write]. by rewrite Hrun.
Qed.

(** X10: what the transform returns, the writer stores.  For a well-formed
    snapshot with at least one present cell and no symbol named [Datetime]
    or [Close], and a disk that does not fail, [save_to_datalake] applied to
    the frame that [process_data] returned succeeds and logs it, and for
    every record of that frame the partition directory
    [root/ano=Y/mes=M/dia=D] of the record's timestamp is on disk, and its
    file [part.0.parquet] is a snappy part file with the columns
    [Datetime], [Ticker] and [Close] that has a row with the timestamp, the
    symbol and the price of the record. *)
Theorem save_to_datalake_writes_partitions env w r df base_path :
  heap w !! r = Some df →
  wf_snapshot df = true →
  clashes df = false →
  0 < present_cells df →
  disk_fault env = None →
  let processed := process_data r env w in
  ∃ out rs w',
    returned processed = Some out ∧ records out = Some rs ∧
    save_to_datalake (length (heap w)) base_path env processed.2 = (Ret tt, w') ∧
    log w' = log w ++ [(INFO, "Data saved successfully to " +:+ base_path)] ∧
    ∀ q, q ∈ rs →
      partition_dir base_path (timestamp q) ∈ dirs (disk w') ∧
      ∃ f, files (disk w')
             !! (partition_dir base_path (timestamp q) +:+ "/" +:+ part_name)
           = Some f ∧
           holds f q.
Proof.
  intros Hr Hwf Hclash Hpos Hfault processed. subst processed.
  assert (empty df = false) as He.
  { destruct (empty df) eqn:He; [|done].
    destruct (wf_snapshot_typed _ Hwf) as (ts & cols & Hty).
    rewrite <- (column_major_length _ _ _ Hty), (column_major_empty _ He) in Hpos.
    cbn in Hpos. lia. }
  rewrite (process_data_tidy_run env w r df Hr Hwf He Hclash). cbn [snd].
  destruct (wf_snapshot_typed _ Hwf) as (ts & cols & Hty).
  set (w1 := {| heap := _ |}).
  assert (deref w1 (length (heap w)) = tidy_frame df) as Hd.
  { unfold deref. subst w1. cbn [heap].
    rewrite list_lookup_middle; [done|]. by rewrite length_named. }
  pose proof (save_tidy_frame_disk env w1 (length (heap w)) ts cols df base_path
                Hty Hd Hpos Hfault) as Hdisk.
  destruct (save_tidy_frame env w1 (length (heap w)) ts cols df base_path
              Hty Hd Hpos Hfault) as (a & d' & Hcol & Hsave & Hparts).
  rewrite Hsave in Hdisk. cbn [snd disk] in Hdisk.
  destruct (to_parquet_tidy_rows ts cols df base_path (disk w1) Hty)
    as (A & B & C & HA & HB & HC & Hrows).
  pose proof (records_tidy_frame env w r df Hr Hwf He Hclash) as Hrec.
  exists (tidy_frame df), (column_major df). eexists.
  split. { cbn. apply list_lookup_middle. by rewrite length_named. }
  split; [done|]. split; [exact Hsave|]. split; [done|].
  intros q Hq. cbn [disk]. split.
  - pose proof (records_timestamps _ _ _ _ Hrec Hcol Hq) as Ht.
    apply list_elem_of_fmap in Ht as (t & [= <-] & Ht). by apply Hparts.
  - destruct (records_rows _ _ _ _ _ _ Hrec HA HB HC Hq) as (i & Hi & Hs & Hp).
    destruct (Hrows i _ Hi) as (ca & cb & cc & j & Hfile & Hrow).
    destruct (Hrow _ _ _ Hi Hs Hp) as (Hja & Hjb & Hjc).
    rewrite Hdisk. eexists. split; [exact Hfile|].
    by exists ca, cb, cc, j.
Qed.

Lemma save_to_datalake_writes_partitions_witness :
  heap (boot [scenario]) !! 0 = Some scenario ∧
  wf_snapshot scenario = true ∧
  clashes scenario = false ∧
  0 < present_cells scenario ∧
  disk_fault calm = None ∧
  let processed := process_data 0 calm (boot [scenario]) in
  ∃ out rs w',
    returned processed = Some out ∧ records out = Some rs ∧
    save_to_datalake (length (heap (boot [scenario]))) BASE_PATH calm processed.2
      = (Ret tt, w') ∧
    log w' = log (boot [scenario])
               ++ [(INFO, "Data saved successfully to " +:+ BASE_PATH)] ∧
    ∀ q, q ∈ rs →
      partition_dir BASE_PATH (timestamp q) ∈ dirs (disk w') ∧
      ∃ f, files (disk w')
             !! (partition_dir BASE_PATH (timestamp q) +:+ "/" +:+ part_name)
           = Some f ∧
           holds f q.
Proof.
  assert (0 < present_cells scenario) as Hpos by (vm_compute; lia).
  split; [reflexivity|]. split; [vm_compute; reflexivity|].
  split; [vm_compute; reflexivity|]. split; [exact Hpos|].
  split; [reflexivity|].
  apply (save_to_datalake_writes_partitions calm (boot [scenario]) 0 scenario
           BASE_PATH); try (vm_compute; reflexivity). exact Hpos.
Defined.


(** ** Whole cycles *)

Lemma tidy_frame_empty ts cols df :
  typed ts cols df →
  empty (tidy_frame df) = Nat.eqb (present_cells df) 0.
Proof.
  intros Hty. destruct (tidy_frame_shape _ _ _ Hty) as (_ & _ & Hn).
  unfold empty. fold (nrows (tidy_frame df)). rewrite Hn.
  by destruct (present_cells df).
Qed.

(** X11: a whole cycle on a good answer.  When the [Close] prices of the
    answer form a well-formed snapshot with a present cell and no clashing
    symbol, the disk does not fail and the sleep is not
    interrupted, the iteration fetches, transforms, writes and sleeps: it
    logs the three info lines, makes one write to [BASE_PATH], and
    afterwards the partition directory of every present cell's timestamp is
    on disk and holds a file [part.0.parquet]; the loop continues. *)
Theorem main_cycle_stores_quotes env w df :
  close_prices env = Some df →
  wf_snapshot df = true →
  clashes df = false →
  0 < present_cells df →
  disk_fault env = None →
  interval_nap env = None →
  ∃ w',
    main_iteration env w = (Ret Continue, w') ∧
    log w' = log w ++ [ (INFO, "Fetching market data...");
                        (INFO, "Data saved successfully to datalake");
                        (INFO, "Sleeping for 120 seconds...") ] ∧
    writes w' = writes w ++ [BASE_PATH] ∧
    sleeps w' = sleeps w ++ [INTERVAL_SECONDS] ∧
    ∀ q, q ∈ column_major df →
      partition_dir BASE_PATH (timestamp q) ∈ dirs (disk w') ∧
      (partition_dir BASE_PATH (timestamp q) +:+ "/" +:+ part_name)
        ∈ dom (files (disk w')).
Proof.
  intros Hprices Hwf Hclash Hpos Hfault Hnap.
  destruct (wf_snapshot_typed _ Hwf) as (ts & cols & Hty).
  unfold close_prices in Hprices.
  destruct (download env) as [data|] eqn:Hdl; [|done].
  destruct (quotes_empty data) eqn:Hne; [done|].
  destruct (lookup_field "Close" (q_fields data)) as [cs|] eqn:Hclose; [|done].
  injection Hprices as Hdf.
  assert (empty df = false) as He.
  { destruct (empty df) eqn:He; [|done].
    rewrite <- (column_major_length _ _ _ Hty), (column_major_empty _ He) in Hpos.
    cbn in Hpos. lia. }
  unfold main_iteration, main_body, df_empty, load.
  unfold mbind, M_bind, mret, M_ret, logger_info, logger, surroundings, time_sleep.
  rewrite fetch_data_run, Hdl, Hne, Hclose, Hdf. unfold after_fetch.
  set (w1 := {| heap := _ |}).
  assert (heap w1 !! length (heap w) = Some df) as Hr1.
  { subst w1. cbn [heap add_log]. by apply list_lookup_middle. }
  cbn [add_log heap]. rewrite (deref_lookup _ _ _ Hr1), He. cbn [negb].
  rewrite (process_data_tidy_run env w1 _ df Hr1 Hwf He Hclash).
  set (w2 := {| heap := named _ _ _ ++ _ |}).
  assert (deref w2 (length (heap w1)) = tidy_frame df) as Hd2.
  { unfold deref. subst w2. cbn [heap].
    rewrite list_lookup_middle; [done|]. by rewrite length_named. }
  rewrite Hd2, (tidy_frame_empty _ _ _ Hty).
  destruct (present_cells df) as [|n] eqn:Hcells; [lia|]. cbn [Nat.eqb negb].
  destruct (save_tidy_frame env w2 (length (heap w1)) ts cols df BASE_PATH
              Hty Hd2 ltac:(lia) Hfault) as (a & d' & Hcol & -> & Hparts).
  rewrite Hnap. eexists. split; [reflexivity|].
  pose proof (records_tidy_frame env w1 _ df Hr1 Hwf He Hclash) as Hrec.
  subst w2 w1. cbn. rewrite <- !app_assoc. repeat split; try done.
  all: pose proof (records_timestamps _ _ _ _ Hrec Hcol H) as Ht;
    apply list_elem_of_fmap in Ht as (t & [= <-] & Ht); by apply Hparts.
Qed.


Lemma main_cycle_stores_quotes_witness :
  ∃ w',
    main_iteration calm (boot []) = (Ret Continue, w') ∧
    log w' = log (boot []) ++ [ (INFO, "Fetching market data...");
                                (INFO, "Data saved successfully to datalake");
                                (INFO, "Sleeping for 120 seconds...") ] ∧
    writes w' = writes (boot []) ++ [BASE_PATH] ∧
    sleeps w' = sleeps (boot []) ++ [INTERVAL_SECONDS] ∧
    ∀ q, q ∈ column_major (rename_index "Datetime" scenario) →
      partition_dir BASE_PATH (timestamp q) ∈ dirs (disk w') ∧
      (partition_dir BASE_PATH (timestamp q) +:+ "/" +:+ part_name)
        ∈ dom (files (disk w')).
Proof.
  assert (0 < present_cells (rename_index "Datetime" scenario)) as Hpos
    by (vm_compute; lia).
  apply (main_cycle_stores_quotes calm (boot []) _);
    try (vm_compute; reflexivity). exact Hpos.
Defined.

(** X12: a cycle whose answer has rows but no price.  When every cell of the
    [Close] prices is null, the transform leaves no row: the iteration
    logs the warning [Processed data is empty.], attempts no write, leaves
    the disk as it was, sleeps the interval and continues. *)
Theorem main_cycle_all_null env w df :
  close_prices env = Some df →
  wf_snapshot df = true →
  clashes df = false →
  empty df = false →
  present_cells df = 0 →
  interval_nap env = None →
  ∃ w',
    main_iteration env w = (Ret Continue, w') ∧
    log w' = log w ++ [ (INFO, "Fetching market data...");
                        (WARNING, "Processed data is empty.");
                        (INFO, "Sleeping for 120 seconds...") ] ∧
    writes w' = writes w ∧ disk w' = disk w ∧
    sleeps w' = sleeps w ++ [INTERVAL_SECONDS].
Proof.
  intros Hprices Hwf Hclash He Hnone Hnap.
  destruct (wf_snapshot_typed _ Hwf) as (ts & cols & Hty).
  unfold close_prices in Hprices.
  destruct (download env) as [data|] eqn:Hdl; [|done].
  destruct (quotes_empty data) eqn:Hne; [done|].
  destruct (lookup_field "Close" (q_fields data)) as [cs|] eqn:Hclose; [|done].
  injection Hprices as Hdf.
  unfold main_iteration, main_body, df_empty, load.
  unfold mbind, M_bind, mret, M_ret, logger_info, logger_warning, logger,
    surroundings, time_sleep.
  rewrite fetch_data_run, Hdl, Hne, Hclose, Hdf. unfold after_fetch.
  set (w1 := {| heap := _ |}).
  assert (heap w1 !! length (heap w) = Some df) as Hr1.
  { subst w1. cbn [heap add_log]. by apply list_lookup_middle. }
  cbn [add_log heap]. rewrite (deref_lookup _ _ _ Hr1), He. cbn [negb].
  rewrite (process_data_tidy_run env w1 _ df Hr1 Hwf He Hclash).
  set (w2 := {| heap := named _ _ _ ++ _ |}).
  assert (deref w2 (length (heap w1)) = tidy_frame df) as Hd2.
  { unfold deref. subst w2. cbn [heap].
    rewrite list_lookup_middle; [done|]. by rewrite length_named. }
  rewrite Hd2, (tidy_frame_empty _ _ _ Hty), Hnone. cbn [Nat.eqb negb].
  rewrite Hnap. eexists. split; [reflexivity|].
  subst w2 w1. cbn. by rewrite <- !app_assoc.
Qed.

Lemma main_cycle_all_null_witness :
  ∃ w',
    main_iteration muted (boot []) = (Ret Continue, w') ∧
    log w' = log (boot []) ++ [ (INFO, "Fetching market data...");
                                (WARNING, "Processed data is empty.");
                                (INFO, "Sleeping for 120 seconds...") ] ∧
    writes w' = writes (boot []) ∧ disk w' = disk (boot []) ∧
    sleeps w' = sleeps (boot []) ++ [INTERVAL_SECONDS].
Proof.
  apply (main_cycle_all_null muted (boot []) (rename_index "Datetime" silent));
    vm_compute; reflexivity.
Defined.

(** X13: a cycle whose answer is empty.  When the feed answers with no rows
    or no columns, [fetch_data] logs the warning [No data returned from
    API.], the loop skips the transform and the write without a further
    line, sleeps the interval and continues; the disk is as it was. *)
Theorem main_cycle_empty_answer env w data :
  download env = Ret data →
  quotes_empty data = true →
  interval_nap env = None →
  ∃ w',
    main_iteration env w = (Ret Continue, w') ∧
    log w' = log w ++ [ (INFO, "Fetching market data...");
                        (WARNING, "No data returned from API.");
                        (INFO, "Sleeping for 120 seconds...") ] ∧
    writes w' = writes w ∧ disk w' = disk w ∧
    sleeps w' = sleeps w ++ [INTERVAL_SECONDS].
Proof.
  intros Hdl Hempty Hnap.
  unfold main_iteration, main_body, df_empty, load, deref.
  unfold mbind, M_bind, mret, M_ret, logger_info, logger, surroundings,
    time_sleep.
  rewrite fetch_data_run, Hdl, Hempty. unfold after_fetch.
  cbn [heap add_log]. rewrite list_lookup_middle by done.
  cbn [default empty index pd_DataFrame length Nat.eqb orb negb].
  rewrite Hnap. eexists. split; [reflexivity|].
  cbn. by rewrite <- !app_assoc.
Qed.

Lemma main_cycle_empty_answer_witness :
  ∃ w',
    main_iteration closed (boot []) = (Ret Continue, w') ∧
    log w' = log (boot []) ++ [ (INFO, "Fetching market data...");
                                (WARNING, "No data returned from API.");
                                (INFO, "Sleeping for 120 seconds...") ] ∧
    writes w' = writes (boot []) ∧ disk w' = disk (boot []) ∧
    sleeps w' = sleeps (boot []) ++ [INTERVAL_SECONDS].
Proof.
  apply (main_cycle_empty_answer closed (boot []) _ eq_refl);
    vm_compute; reflexivity.
Defined.

Lemma main_body_quiet env w :
  (∀ df, close_prices env = Some df → empty df = true) →
  writes (main_body env w).2 = writes w ∧ disk (main_body env w).2 = disk w.
Proof.
  intros Hquiet.
  unfold main_body, df_empty, load, deref.
  unfold mbind, M_bind, mret, M_ret, logger_info, logger, surroundings,
    time_sleep.
  rewrite fetch_data_run. unfold close_prices in Hquiet.
  destruct (download env) as [data|[| |cls msg]]; try done.
  - destruct (quotes_empty data).
    + unfold after_fetch. cbn [heap add_log].
      rewrite list_lookup_middle by done.
      cbn [default empty index pd_DataFrame length Nat.eqb orb negb].
      by destruct (interval_nap env).
    + destruct (lookup_field "Close" (q_fields data)) as [cs|].
      * unfold after_fetch. cbn [heap add_log].
        rewrite list_lookup_middle by done. cbn [default from_option id].
        pose proof (Hquiet _ eq_refl) as Hq. cbn [fmap option_fmap option_map] in Hq.
        rewrite Hq. cbn [negb].
        by destruct (interval_nap env).
      * unfold after_fetch. cbn [heap add_log].
        rewrite list_lookup_middle by done.
        cbn [default empty index pd_DataFrame length Nat.eqb orb negb].
        by destruct (interval_nap env).
  - unfold after_fetch. cbn [heap add_log].
    rewrite list_lookup_middle by done.
    cbn [default empty index pd_DataFrame length Nat.eqb orb negb].
    by destruct (interval_nap env).
Qed.

Lemma main_iteration_quiet env w :
  (∀ df, close_prices env = Some df → empty df = true) →
  writes (main_iteration env w).2 = writes w ∧
  disk (main_iteration env w).2 = disk w.
Proof.
  intros Hquiet. destruct (main_body_quiet env w Hquiet) as [Hw Hd].
  revert Hw Hd. unfold main_iteration.
  unfold mbind, M_bind, mret, M_ret, logger_info, logger_critical, logger,
    time_sleep.
  by destruct (main_body env w) as [[[]|[| |cls msg]] w1];
    try destruct (backoff_nap env).
Qed.

(** X14: nothing is written without prices.  Whatever else happens in a
    cycle, if the iteration attempted a write or changed the disk, then the
    feed had answered with [Close] prices that have rows and columns. *)
Theorem main_iteration_writes_only_prices env w :
  writes (main_iteration env w).2 ≠ writes w ∨
  disk (main_iteration env w).2 ≠ disk w →
  ∃ df, close_prices env = Some df ∧ empty df = false.
Proof.
  intros Hchanged.
  destruct (close_prices env) as [df|] eqn:Hprices.
  - destruct (empty df) eqn:He; [|by exists df].
    destruct (main_iteration_quiet env w) as [Hw Hd]; [congruence|].
    by destruct Hchanged.
  - destruct (main_iteration_quiet env w) as [Hw Hd]; [congruence|].
    by destruct Hchanged.
Qed.

Lemma main_iteration_writes_only_prices_witness :
  ∃ df, close_prices calm = Some df ∧ empty df = false.
Proof.
  apply (main_iteration_writes_only_prices calm (boot [])).
  left. vm_compute. discriminate.
Defined.


(** ** The dashboard's loader *)

Lemma to_datetime_errors conv col :
  raises_errors_only (Dashboard.to_datetime conv col).
Proof. unfold Dashboard.to_datetime. by destruct (mapM _ _). Qed.

(** What a run of the body of [load_data] comes to: it leaves the cache
    alone, renders nothing or one error, and lets only a signal that
    arrived during the read through. *)
Lemma load_data_body_effects env s path :
  ∃ o es,
    Dashboard.load_data_body path env s =
      (o, {| Dashboard.cache := Dashboard.cache s;
             Dashboard.page := Dashboard.page s ++ es |}) ∧
    match o with
    | Ret df =>
        es = [] ∨
        ∃ msg, es = [Dashboard.Error ("Error loading data: " +:+ msg)] ∧
               df = pd_DataFrame ∧
               ((∃ cls, Dashboard.read_parquet env path = Raise (Exception cls msg)) ∨
                ∃ frame, Dashboard.read_parquet env path = Ret frame)
    | Raise e =>
        es = [] ∧ is_error e = false ∧
        os_path_exists (Dashboard.store env) path = true ∧
        Dashboard.read_parquet env path = Raise e
    end.
Proof.
  unfold Dashboard.load_data_body, Dashboard.try_except, Dashboard.os_exists.
  unfold mbind, Dashboard.St_bind, mret, Dashboard.St_ret.
  destruct (os_path_exists (Dashboard.store env) path) eqn:Hex; cbn [negb].
  2:{ exists (Ret pd_DataFrame), []. rewrite app_nil_r.
      split; [by destruct s|by left]. }
  unfold Dashboard.surroundings, Dashboard.lift.
  destruct (Dashboard.read_parquet env path) as [df|[| |cls msg]] eqn:Hread.
  - case_bool_decide as Hlabel.
    + unfold getitem. destruct (lookup_col_label _ _ Hlabel) as [col ->].
      pose proof (to_datetime_errors (Dashboard.convert env) col) as Herr.
      destruct (Dashboard.to_datetime _ col) as [col'|[| |cls msg]]; try done.
      * exists (Ret (setitem df "Datetime" col')), []. rewrite app_nil_r.
        split; [by destruct s|by left].
      * eexists (Ret pd_DataFrame), [_]. split; [done|].
        right. eexists. split; [done|]. split; [done|]. right. by eexists.
    + exists (Ret df), []. rewrite app_nil_r. split; [by destruct s|by left].
  - exists (Raise KeyboardInterrupt), []. rewrite app_nil_r.
    split; [by destruct s|done].
  - exists (Raise SystemExit), []. rewrite app_nil_r.
    split; [by destruct s|done].
  - eexists (Ret pd_DataFrame), [_]. split; [done|].
    right. eexists. split; [done|]. split; [done|]. left. by eexists.
Qed.

(** X15: the loader contains its errors.  Whatever the store holds and
    whatever the read or the conversion of the [Datetime] column does,
    [load_data] never raises an error; what was on the page stays there,
    before what the call adds; and a call that a signal ended records
    nothing in the cache. *)
Theorem load_data_contains_errors env s path :
  let r := Dashboard.load_data path env s in
  (∀ cls msg, r.1 ≠ Raise (Exception cls msg)) ∧
  Dashboard.page s `prefix_of` Dashboard.page r.2 ∧
  (∀ e, r.1 = Raise e → Dashboard.cache r.2 = Dashboard.cache s).
Proof.
  unfold Dashboard.load_data, Dashboard.cache_data.
  destruct (load_data_body_effects env s path) as (o & es & Hbody & Ho).
  rewrite Hbody.
  assert (∀ cls msg, o ≠ Raise (Exception cls msg)) as Hcontained.
  { intros cls msg ->. by destruct Ho as (_ & ? & _). }
  destruct (Dashboard.cache s !! path) as [entry|];
    [destruct (_ <? _)%Z|]; destruct o as [df|e]; cbn;
    (split; [try done|split; [by apply prefix_app_r|try done]]).
Qed.

(** X16: a result is served for a minute.  When a call of [load_data] that
    found no fresh entry returned a frame, every call for the same path
    less than 60 seconds later returns that frame and renders again what
    the first call rendered, whatever the store holds by then and whatever
    the read would do: the body is not run. *)
Theorem load_data_served_from_cache env1 env2 s path df s1 :
  stale env1 s path →
  Dashboard.load_data path env1 s = (Ret df, s1) →
  (Dashboard.now env2 - Dashboard.now env1 < 60)%Z →
  Dashboard.load_data path env2 s1 =
    (Ret df,
     {| Dashboard.cache := Dashboard.cache s1;
        Dashboard.page :=
          Dashboard.page s1
          ++ drop (length (Dashboard.page s)) (Dashboard.page s1) |}).
Proof.
  intros Hstale Hfirst Hsoon.
  unfold Dashboard.load_data, Dashboard.cache_data in *.
  assert (match Dashboard.load_data_body path env1 s with
          | (Ret df0, s') =>
              (Ret df0,
               {| Dashboard.cache :=
                    <[path := {| Dashboard.computed_at := Dashboard.now env1;
                                 Dashboard.value := df0;
                                 Dashboard.rendered :=
                                   drop (length (Dashboard.page s))
                                     (Dashboard.page s') |}]>
                      (Dashboard.cache s');
                  Dashboard.page := Dashboard.page s' |})
          | r => r
          end = (Ret df, s1)) as Hrun.
  { destruct (Dashboard.cache s !! path) as [entry|] eqn:Hentry; [|done].
    specialize (Hstale _ Hentry).
    destruct (Z.ltb_spec (Dashboard.now env1 - Dashboard.computed_at entry) 60);
      [lia|done]. }
  clear Hfirst.
  destruct (Dashboard.load_data_body path env1 s) as [[df0|e] s']; [|done].
  injection Hrun as -> <-. cbn [Dashboard.cache Dashboard.page].
  rewrite lookup_insert_eq. cbn [Dashboard.computed_at].
  destruct (Z.ltb_spec (Dashboard.now env2 - Dashboard.now env1) 60); [done|lia].
Qed.

Lemma load_data_served_from_cache_witness :
  let first := Dashboard.load_data Dashboard.DATA_PATH bare_directory fresh_session in
  Dashboard.load_data Dashboard.DATA_PATH half_a_minute_later first.2 =
    (Ret pd_DataFrame,
     {| Dashboard.cache := Dashboard.cache first.2;
        Dashboard.page :=
          Dashboard.page first.2
          ++ drop (length (Dashboard.page fresh_session))
               (Dashboard.page first.2) |}).
Proof.
  apply (load_data_served_from_cache bare_directory half_a_minute_later
           fresh_session Dashboard.DATA_PATH pd_DataFrame).
  - intros entry Hentry. vm_compute in Hentry. discriminate.
  - vm_compute. reflexivity.
  - vm_compute. reflexivity.
Defined.

(** X17: a failed read on the page.  When the store directory exists, the
    read raises an error and no cached result is fresh, a run of the page
    shows the title, the error with its message and the notice that no data
    is available, and ends normally; the empty result is recorded in the
    cache with the time of the run. *)
Theorem dashboard_shows_failed_read env s cls msg :
  os_path_exists (Dashboard.store env) Dashboard.DATA_PATH = true →
  Dashboard.read_parquet env Dashboard.DATA_PATH = Raise (Exception cls msg) →
  stale env s Dashboard.DATA_PATH →
  ∃ s' entry,
    Dashboard.main env s = (Ret tt, s') ∧
    Dashboard.page s' =
      Dashboard.page s
      ++ [ Dashboard.Title "Financial Market Data Analysis";
           Dashboard.Error ("Error loading data: " +:+ msg);
           Dashboard.Info "No data available in the Data Lake yet." ] ∧
    Dashboard.cache s' !! Dashboard.DATA_PATH = Some entry ∧
    Dashboard.value entry = pd_DataFrame ∧
    Dashboard.computed_at entry = Dashboard.now env ∧
    Dashboard.rendered entry = [Dashboard.Error ("Error loading data: " +:+ msg)].
Proof.
  intros Hex Hread Hstale.
  unfold Dashboard.main, Dashboard.st_title, Dashboard.render,
    Dashboard.os_exists.
  unfold mbind, Dashboard.St_bind, mret, Dashboard.St_ret.
  rewrite Hex. cbn [negb].
  unfold Dashboard.load_data, Dashboard.cache_data.
  cbn [Dashboard.cache Dashboard.page].
  assert (Dashboard.load_data_body Dashboard.DATA_PATH env
            {| Dashboard.cache := Dashboard.cache s;
               Dashboard.page :=
                 Dashboard.page s
                 ++ [Dashboard.Title "Financial Market Data Analysis"] |}
          = (Ret pd_DataFrame,
             {| Dashboard.cache := Dashboard.cache s;
                Dashboard.page :=
                  (Dashboard.page s
                   ++ [Dashboard.Title "Financial Market Data Analysis"])
                  ++ [Dashboard.Error ("Error loading data: " +:+ msg)] |}))
    as Hbody.
  { unfold Dashboard.load_data_body, Dashboard.try_except, Dashboard.os_exists.
    unfold mbind, Dashboard.St_bind, mret, Dashboard.St_ret.
    cbn [Dashboard.store]. rewrite Hex. cbn [negb].
    unfold Dashboard.surroundings, Dashboard.lift. by rewrite Hread. }
  rewrite Hbody. cbn [Dashboard.cache Dashboard.page].
  rewrite drop_app_length.
  assert (∀ (entry : Dashboard.Entry) X Y,
            Dashboard.cache s !! Dashboard.DATA_PATH = Some entry →
            (if (Dashboard.now env - Dashboard.computed_at entry <? 60)%Z
             then X else Y) = Y :> (Outcome DataFrame * Dashboard.Session))
    as Hmiss.
  { intros entry X Y Hentry. specialize (Hstale _ Hentry).
    by destruct (Z.ltb_spec (Dashboard.now env - Dashboard.computed_at entry) 60);
      [lia|]. }
  destruct (Dashboard.cache s !! Dashboard.DATA_PATH) as [entry|] eqn:Hentry;
    [rewrite (Hmiss _ _ _ eq_refl)|];
    cbn; (eexists _, _; split; [reflexivity|]); cbn;
    rewrite lookup_insert_eq, <- !app_assoc; done.
Qed.

Lemma dashboard_shows_failed_read_witness :
  ∃ s' entry,
    Dashboard.main bare_directory fresh_session = (Ret tt, s') ∧
    Dashboard.page s' =
      Dashboard.page fresh_session
      ++ [ Dashboard.Title "Financial Market Data Analysis";
           Dashboard.Error ("Error loading data: " +:+ "No files in dir");
           Dashboard.Info "No data available in the Data Lake yet." ] ∧
    Dashboard.cache s' !! Dashboard.DATA_PATH = Some entry ∧
    Dashboard.value entry = pd_DataFrame ∧
    Dashboard.computed_at entry = Dashboard.now bare_directory ∧
    Dashboard.rendered entry
    = [Dashboard.Error ("Error loading data: " +:+ "No files in dir")].
Proof.
  apply (dashboard_shows_failed_read bare_directory fresh_session "ValueError").
  - vm_compute. reflexivity.
  - reflexivity.
  - intros entry Hentry. vm_compute in Hentry. discriminate.
Defined.
